(** * tasksB: sandboxed tool calls

    A shallow embedding of [tasksB.py]: the path guard [B12], the directory
    ensurer and the six operations [B3], [B5], [B6], [B7], [B9], [B10],
    together with the library calls they are built from ([os.path.normpath],
    [os.path.dirname], [os.path.split], [os.makedirs] over [os.mkdir] and
    [os.stat], [open], [requests.get], ...). *)

From Stdlib Require Import ZArith Ascii String List Bool Lia DecimalString.
From stdpp Require Import base option gmap strings list fin_maps.

Open Scope string_scope.
Open Scope Z_scope.

(** ** Python strings

    A Python [str] is modelled as a Rocq [string]; only the characters that
    the path functions inspect (the slash and the dot) have a fixed
    meaning. *)

Module PyStr.

Definition sep : ascii := "/"%char.

Definition is_sep (c : ascii) : bool := Ascii.eqb c sep.

(** [s.startswith(p)] *)
Definition startswith (s p : string) : bool := String.prefix p s.

(** [s.split('/')]: always at least one piece. *)
Fixpoint split (s : string) : list string :=
  match s with
  | EmptyString => [EmptyString]
  | String c rest =>
      if is_sep c then EmptyString :: split rest
      else match split rest with
           | [] => [String c EmptyString]
           | piece :: pieces => String c piece :: pieces
           end
  end.

(** ['/'.join(l)] *)
Fixpoint join (l : list string) : string :=
  match l with
  | [] => EmptyString
  | x :: rest =>
      match rest with
      | [] => x
      | _ :: _ => x +:+ String sep (join rest)
      end
  end.

(** ['/' * n] *)
Fixpoint repeat_sep (n : nat) : string :=
  match n with
  | O => EmptyString
  | S n' => String sep (repeat_sep n')
  end.

(** [s.endswith(suffix)] *)
Definition endswith (s suffix : string) : bool :=
  String.prefix (String.rev suffix) (String.rev s).

Fixpoint drop_seps (l : list ascii) : list ascii :=
  match l with
  | c :: l' => if is_sep c then drop_seps l' else l
  | [] => []
  end.

Fixpoint drop_to_sep (l : list ascii) : list ascii :=
  match l with
  | c :: l' => if is_sep c then l else drop_to_sep l'
  | [] => []
  end.

(** [s.rstrip('/')] *)
Definition rstrip_sep (s : string) : string :=
  string_of_list_ascii (List.rev (drop_seps (List.rev (list_ascii_of_string s)))).

(** [s[:s.rfind('/') + 1]]: everything up to and including the last slash,
    the empty string when there is none. *)
Definition upto_last_sep (s : string) : string :=
  string_of_list_ascii (List.rev (drop_to_sep (List.rev (list_ascii_of_string s)))).

Fixpoint take_to_sep (l : list ascii) : list ascii :=
  match l with
  | c :: l' => if is_sep c then [] else c :: take_to_sep l'
  | [] => []
  end.

(** [s[s.rfind('/') + 1:]]: everything after the last slash, the whole
    string when there is none. *)
Definition after_last_sep (s : string) : string :=
  string_of_list_ascii (List.rev (take_to_sep (List.rev (list_ascii_of_string s)))).

(** ['/' not in s] *)
Definition no_sep (s : string) : bool :=
  forallb (fun c => negb (is_sep c)) (list_ascii_of_string s).

(** [s == '/' * len(s)] *)
Definition all_seps (s : string) : bool :=
  forallb is_sep (list_ascii_of_string s).

End PyStr.

(** ** [posixpath]

    [os.path] on the platform the program targets (the sandbox root is the
    POSIX path [/data]). *)

Module Posixpath.
Import PyStr.

(** [initial_slashes] of [normpath]: POSIX allows one or two initial slashes
    and treats three or more as one. *)
Definition initial_slashes (path : string) : nat :=
  if startswith path "/" then
    if startswith path "//" && negb (startswith path "///") then 2%nat else 1%nat
  else 0%nat.

Definition is_nil {A} (l : list A) : bool :=
  match l with [] => true | _ => false end.

Definition last_is_dotdot (l : list string) : bool :=
  match last l with
  | Some c => String.eqb c ".."
  | None => false
  end.

(** One iteration of the loop over [comps] in [normpath]. *)
Definition normpath_step (init : nat) (new_comps : list string) (comp : string)
  : list string :=
  if String.eqb comp "" || String.eqb comp "." then new_comps
  else if negb (String.eqb comp "..")
          || (Nat.eqb init 0 && is_nil new_comps)
          || (negb (is_nil new_comps) && last_is_dotdot new_comps)
       then (new_comps ++ [comp])%list
       else if negb (is_nil new_comps) then removelast new_comps
            else new_comps.

(** [os.path.normpath] *)
Definition normpath (path : string) : string :=
  if String.eqb path "" then "."
  else
    let init := initial_slashes path in
    let comps := fold_left (normpath_step init) (split path) [] in
    let joined := join comps in
    let path' := if Nat.eqb init 0 then joined else repeat_sep init +:+ joined in
    if String.eqb path' "" then "." else path'.

(** [os.path.dirname] *)
Definition dirname (p : string) : string :=
  let head := upto_last_sep p in
  if negb (String.eqb head "") && negb (all_seps head) then rstrip_sep head
  else head.

(** [os.path.split]: the pair of [dirname] and of what follows the last
    slash. *)
Definition path_split (p : string) : string * string :=
  let head := upto_last_sep p in
  let tail := after_last_sep p in
  (if negb (String.eqb head "") && negb (all_seps head) then rstrip_sep head
   else head,
   tail).

(** The text before the first character that [stop] holds of, and whether
    there is such a character. *)
Fixpoint before (stop : ascii -> bool) (s : string) : string * bool :=
  match s with
  | EmptyString => (EmptyString, false)
  | String c s' =>
      if stop c then (EmptyString, true)
      else let (pre, found) := before stop s' in (String c pre, found)
  end.

Definition is_dot (c : ascii) : bool := Ascii.eqb c "."%char.

(** The extension of a path: the text of its last component from the last
    dot on, the dot included; empty when that component has no dot.  (A
    component such as [.db] is all extension here.) *)
Definition extension (p : string) : string :=
  let rbase := fst (before is_sep (String.rev p)) in
  let (rext, found) := before is_dot rbase in
  if found then String "."%char (String.rev rext) else "".

End Posixpath.

(** ** Exceptions *)

Inductive os_error := ENOENT | EEXIST | ENOTDIR | EISDIR | ENAMETOOLONG.

(** What a file system call of the interpreter can fail with: an error
    number of the kernel, or the refusal of a path that holds a null
    character, which is made before the kernel is asked. *)
Inductive fs_error := Errno (e : os_error) | NullByte.

Coercion Errno : os_error >-> fs_error.

(** A result is read against the type that is expected of it, so that an
    error number stands for the error of a call where one is compared with
    the other. *)
#[global] Arguments inl {A B} & _.

Inductive request_error := HTTPError | ConnectionError | Timeout | OtherRequestError.

(** The exceptions that reach the operations.  [SecurityError] is the class
    the module declares; [RequestException] stands for
    [requests.RequestException] and its subclasses; [OSError] for the errors
    of the file system calls; [ValueError] for the refusal of a path with a
    null character; [LibraryError] for every other [Exception] raised by a
    collaborator (database engine, image codec, CSV parser). *)
Inductive exn :=
| SecurityError (msg : string)
| RequestException (kind : request_error) (msg : string)
| OSError (err : os_error) (filename : string)
| ValueError (msg : string)
| LibraryError (msg : string).

(** The exception a failed file system call raises; [filename] is the path
    the call was given. *)
Definition fs_exn (err : fs_error) (filename : string) : exn :=
  match err with
  | Errno e => OSError e filename
  | NullByte => ValueError "embedded null byte"
  end.

Definition is_security_error (e : exn) : bool :=
  match e with SecurityError _ => true | _ => false end.

(** [isinstance(e, requests.RequestException)] *)
Definition is_request_exception (e : exn) : bool :=
  match e with RequestException _ _ => true | _ => false end.

Definition errno (e : os_error) : string :=
  match e with
  | ENOENT => "2" | EEXIST => "17" | ENOTDIR => "20" | EISDIR => "21"
  | ENAMETOOLONG => "36"
  end.

Definition strerror (e : os_error) : string :=
  match e with
  | ENOENT => "No such file or directory"
  | EEXIST => "File exists"
  | ENOTDIR => "Not a directory"
  | EISDIR => "Is a directory"
  | ENAMETOOLONG => "File name too long"
  end.

(** ** The world the operations act on *)

Inductive node := NFile (data : string) | NDir.

Inductive engine := SQLite | DuckDB.

Inductive level := INFO | WARNING | ERROR.

(** Calls that leave the process: network, database and file system. *)
Inductive io_event :=
| NetGet (url : string) (timeout : Z)
| DbConnect (eng : engine) (db_path : string)
| DbExecute (eng : engine) (db_path : string) (query : string)
| DbClose (eng : engine) (db_path : string)
| FsMakedirs (dir : string)
| FsOpenWrite (path : string)
| FsOpenRead (path : string).

(** The file tree maps a location (the list of names from the root) to its
    node; the root itself is always a directory and has no entry.  There are
    no symbolic links and no permissions: every directory is writable. *)
Record world := World {
  fs : gmap (list string) node;
  open_conns : list (engine * string);
  trace : list io_event;
  log : list (level * string)
}.

Definition set_fs (t : gmap (list string) node) (w : world) : world :=
  World t (open_conns w) (trace w) (log w).

Definition set_conns (c : list (engine * string)) (w : world) : world :=
  World (fs w) c (trace w) (log w).

(** ** The monad of operations: state and exceptions *)

Definition M (A : Type) : Type := world -> (exn + A) * world.

#[global] Instance M_ret : MRet M := fun A (a : A) (w : world) => (inr a, w).

#[global] Instance M_bind : MBind M := fun A B (f : A -> M B) (m : M A) (w : world) =>
  match m w with
  | (inr a, w') => f a w'
  | (inl e, w') => (inl e, w')
  end.

(** [raise e] *)
Definition raise {A} (e : exn) : M A := fun w => (inl e, w).

(** [try: m  except Exception as e: handler(e)] *)
Definition try_except {A} (m : M A) (handler : exn -> M A) : M A := fun w =>
  match m w with
  | (inr a, w') => (inr a, w')
  | (inl e, w') => handler e w'
  end.

(** [try: m  finally: cleanup]: the cleanup runs on both exits; an exception
    of the cleanup replaces the outcome of the body. *)
Definition try_finally {A} (m : M A) (cleanup : M unit) : M A := fun w =>
  match m w with
  | (r, w') =>
      match cleanup w' with
      | (inr _, w'') => (r, w'')
      | (inl e, w'') => (inl e, w'')
      end
  end.

(** [logger.info], [logger.warning], [logger.error] *)
Definition logger (lvl : level) (msg : string) : M unit := fun w =>
  (inr tt, World (fs w) (open_conns w) (trace w) (log w ++ [(lvl, msg)])).

Definition emit (ev : io_event) : M unit := fun w =>
  (inr tt, World (fs w) (open_conns w) (trace w ++ [ev]) (log w)).

(** [if not ok: raise e] *)
Definition unless (ok : bool) (e : exn) : M unit :=
  if ok then mret tt else raise e.

(** ** The file system calls

    Paths are resolved the way the kernel does it, name by name from the
    root: a dot stays in place, two dots go to the parent (the root is its
    own parent), any other name enters the directory of that name; slashes
    that follow one another count as one.  A relative path is resolved from
    the root as well: the working directory of the process is taken to be
    [/].  A string stands for the bytes of the path. *)

Module Fs.
Import PyStr Posixpath.

(** The longest name and the longest path the kernel takes (the path with
    its final null character). *)
Definition NAME_MAX : Z := 255.
Definition PATH_MAX : Z := 4096.

Definition is_nul (c : ascii) : bool := Ascii.eqb c "000"%char.

Definition has_nul (path : string) : bool :=
  existsb is_nul (list_ascii_of_string path).

(** What every call settles before any name is looked up: the interpreter
    refuses a null character, the kernel an empty path and a path that does
    not fit. *)
Definition check_path (path : string) : option fs_error :=
  if has_nul path then Some NullByte
  else if String.eqb path "" then Some (Errno ENOENT)
  else if PATH_MAX <=? Z.of_nat (String.length path) then Some (Errno ENAMETOOLONG)
  else None.

Definition too_long (c : string) : bool :=
  NAME_MAX <? Z.of_nat (String.length c).

Definition is_skip (c : string) : bool := String.eqb c "" || String.eqb c ".".

(** Resolution of a path all of whose names must be existing directories. *)
Fixpoint walk (t : gmap (list string) node) (cur : list string) (comps : list string)
  : os_error + list string :=
  match comps with
  | [] => inr cur
  | c :: rest =>
      if is_skip c then walk t cur rest
      else if String.eqb c ".." then walk t (removelast cur) rest
      else if too_long c then inl ENAMETOOLONG
      else match t !! (cur ++ [c])%list with
           | Some NDir => walk t (cur ++ [c])%list rest
           | Some (NFile _) => inl ENOTDIR
           | None => inl ENOENT
           end
  end.

Definition is_name (c : string) : bool := negb (String.eqb c "").

(** The names of a path, in order. *)
Definition names (path : string) : list string :=
  List.filter is_name (split path).

(** What the last name of a path leads to, once the names before it have
    been walked: a directory that is there already (no name at all, a dot or
    two dots), or a name to look up in the directory [dir]; [trailing] tells
    whether slashes follow the name. *)
Inductive target :=
| Directory (loc : list string)
| Name (dir : list string) (c : string) (trailing : bool).

Definition resolve (t : gmap (list string) node) (path : string)
  : fs_error + target :=
  match check_path path with
  | Some e => inl e
  | None =>
      let l := names path in
      match walk t [] (removelast l) with
      | inl e => inl (Errno e)
      | inr d =>
          match last l with
          | None => inr (Directory [])
          | Some c =>
              if String.eqb c "." then inr (Directory d)
              else if String.eqb c ".." then inr (Directory (removelast d))
              else inr (Name d c (endswith path "/"))
          end
      end
  end.

(** [os.stat(path)], as far as the kind of the node goes. *)
Definition stat (t : gmap (list string) node) (path : string)
  : fs_error + node :=
  match resolve t path with
  | inl e => inl e
  | inr (Directory _) => inr NDir
  | inr (Name d c trailing) =>
      if too_long c then inl (Errno ENAMETOOLONG)
      else match t !! (d ++ [c])%list with
           | None => inl (Errno ENOENT)
           | Some NDir => inr NDir
           | Some (NFile data) =>
               if trailing then inl (Errno ENOTDIR) else inr (NFile data)
           end
  end.

(** [os.path.exists(path)]: whether [os.stat] answers. *)
Definition exists_ (t : gmap (list string) node) (path : string) : bool :=
  match stat t path with
  | inr _ => true
  | inl _ => false
  end.

(** [os.path.isdir(path)] *)
Definition isdir (t : gmap (list string) node) (path : string) : bool :=
  match stat t path with
  | inr NDir => true
  | _ => false
  end.

(** [os.mkdir(path)] *)
Definition mkdir (t : gmap (list string) node) (path : string)
  : fs_error + gmap (list string) node :=
  match resolve t path with
  | inl e => inl e
  | inr (Directory _) => inl (Errno EEXIST)
  | inr (Name d c _) =>
      if too_long c then inl (Errno ENAMETOOLONG)
      else match t !! (d ++ [c])%list with
           | Some _ => inl (Errno EEXIST)
           | None => inr (<[(d ++ [c])%list := NDir]> t)
           end
  end.

(** The first lines of [os.makedirs]: the name is split, and split once more
    when it ends with a slash. *)
Definition makedirs_parts (name : string) : string * string :=
  let (head, tail) := path_split name in
  if String.eqb tail "" then path_split head else (head, tail).

(** [isinstance(e, FileExistsError)] *)
Definition is_file_exists_error (e : fs_error) : bool :=
  match e with
  | Errno EEXIST => true
  | _ => false
  end.

(** The last lines of [os.makedirs] with [exist_ok=True]: the directory is
    made; an [OSError] of [mkdir] is dropped when the name is a directory,
    and raised otherwise.  An error comes with the name [mkdir] was given. *)
Definition mkdir_exist_ok (t : gmap (list string) node) (name : string)
  : option (fs_error * string) * gmap (list string) node :=
  match mkdir t name with
  | inr t' => (None, t')
  | inl NullByte => (Some (NullByte, name), t)
  | inl (Errno e) =>
      if isdir t name then (None, t) else (Some (Errno e, name), t)
  end.

(** [os.makedirs(name, exist_ok=True)].  When the head of the name does not
    exist the function calls itself on the head; a [FileExistsError] of that
    call is dropped, any other error ends the call; a name whose tail is a
    dot is then left as it is.  The recursion is on a shorter string each
    time; [fuel] bounds its depth. *)
Fixpoint makedirs_fuel (fuel : nat) (t : gmap (list string) node) (name : string)
  : option (fs_error * string) * gmap (list string) node :=
  match fuel with
  | O => (None, t)
  | S fuel' =>
      let (head, tail) := makedirs_parts name in
      if negb (String.eqb head "") && negb (String.eqb tail "")
         && negb (exists_ t head) then
        match makedirs_fuel fuel' t head with
        | (Some (e, filename), t1) =>
            if is_file_exists_error e then
              if String.eqb tail "." then (None, t1) else mkdir_exist_ok t1 name
            else (Some (e, filename), t1)
        | (None, t1) =>
            if String.eqb tail "." then (None, t1) else mkdir_exist_ok t1 name
        end
      else mkdir_exist_ok t name
  end.

(** More fuel than the name is long is all the recursion takes (see
    [makedirs_fuel_enough]): it never runs out. *)
Definition makedirs (t : gmap (list string) node) (name : string)
  : option (fs_error * string) * gmap (list string) node :=
  makedirs_fuel (S (String.length name)) t name.

(** The location [open(path, 'w')] writes to: the last name of the path, in
    the directory the names before it lead to; a path that ends with a slash
    or with dots is refused as a directory. *)
Definition locate (t : gmap (list string) node) (path : string)
  : fs_error + list string :=
  match resolve t path with
  | inl e => inl e
  | inr (Directory _) => inl (Errno EISDIR)
  | inr (Name d c trailing) =>
      if trailing then inl (Errno EISDIR)
      else if too_long c then inl (Errno ENAMETOOLONG)
      else inr (d ++ [c])%list
  end.

(** [open(path, 'w')] followed by one [write(data)] and the close: the file
    is created or truncated, then holds [data]. *)
Definition write_text (t : gmap (list string) node) (path data : string)
  : fs_error + gmap (list string) node :=
  match locate t path with
  | inl e => inl e
  | inr loc =>
      match t !! loc with
      | Some NDir => inl (Errno EISDIR)
      | _ => inr (<[loc := NFile data]> t)
      end
  end.

(** [open(path, 'r')] followed by [read()] and the close. *)
Definition read_text (t : gmap (list string) node) (path : string)
  : fs_error + string :=
  match stat t path with
  | inl e => inl e
  | inr NDir => inl (Errno EISDIR)
  | inr (NFile data) => inr data
  end.

End Fs.

(** The calls as the operations make them: each one is recorded in the
    trace, and an error becomes the exception of the failed call. *)

Definition os_makedirs (name : string) : M unit := fun w =>
  let w1 := snd (emit (FsMakedirs name) w) in
  match Fs.makedirs (fs w1) name with
  | (None, t) => (inr tt, set_fs t w1)
  | (Some (err, filename), t) => (inl (fs_exn err filename), set_fs t w1)
  end.

Definition open_write (path data : string) : M unit := fun w =>
  let w1 := snd (emit (FsOpenWrite path) w) in
  match Fs.write_text (fs w1) path data with
  | inr t => (inr tt, set_fs t w1)
  | inl err => (inl (fs_exn err path), w1)
  end.

Definition open_read (path : string) : M string := fun w =>
  let w1 := snd (emit (FsOpenRead path) w) in
  match Fs.read_text (fs w1) path with
  | inr data => (inr data, w1)
  | inl err => (inl (fs_exn err path), w1)
  end.

Definition demo_tree : gmap (list string) node :=
  <[ ["data"; "old.txt"] := NFile "old" ]> (<[ ["data"] := NDir ]> ∅).

(** ** The collaborators

    The HTTP client, the database engines, the image codec, the Markdown
    renderer and the CSV parser are outside the module; they are taken as an
    interface whose members may answer in any way. *)

Record response := Response {
  status_code : Z;
  reason : string;
  resp_url : string;
  text : string
}.

Inductive sql_value := SqlNull | SqlInt (z : Z) | SqlText (s : string).

Record image := Image { dimensions : Z * Z; pixels : string }.

(** A cell of a parsed table: an integer, a string, a boolean or a missing
    value (columns of floating point numbers are left out). *)
Inductive cell := CInt (z : Z) | CStr (s : string) | CBool (b : bool) | CMissing.

Record dataframe := DataFrame {
  columns : list string;
  rows : list (list cell)
}.

Class Env := {
  (** [requests.get(url, timeout=t)] *)
  net_get : string -> Z -> (request_error * string) + response;
  (** [sqlite3.connect] / [duckdb.connect]; the engine may touch the files *)
  db_connect : engine -> string -> gmap (list string) node
               -> (string + unit) * gmap (list string) node;
  (** [cur.execute(query)] then [cur.fetchall()] *)
  db_query : engine -> string -> string -> gmap (list string) node
             -> (string + list (list sql_value)) * gmap (list string) node;
  (** [conn.close()] *)
  db_close : engine -> string -> gmap (list string) node -> gmap (list string) node;
  (** [str(result)] of a list of rows *)
  str_rows : list (list sql_value) -> string;
  (** decoding of an image file, [img.resize], encoding for a file name *)
  image_decode : string -> string + image;
  image_resize : image -> Z * Z -> string + image;
  image_encode : image -> string -> string + string;
  (** [markdown.markdown] *)
  markdown_render : string -> string;
  (** the parser of [pd.read_csv] *)
  csv_parse : string -> string + dataframe;
  (** [repr(s)] of a string: the string between quotes, with the characters
      that need it written as escapes *)
  py_repr : string -> string
}.

(** [str(e)]; an [OSError] shows its error number, the text of the error and
    the [repr] of the file name; a [KeyError] carries the [repr] of its key
    as its text. *)
Definition py_str `{Env} (e : exn) : string :=
  match e with
  | SecurityError msg => msg
  | RequestException _ msg => msg
  | OSError err filename =>
      "[Errno " +:+ errno err +:+ "] " +:+ strerror err +:+ ": " +:+ py_repr filename
  | ValueError msg => msg
  | LibraryError msg => msg
  end.

(** [str(n)] for an integer *)
Definition str_Z (n : Z) : string := NilZero.string_of_int (Z.to_int n).

Section Operations.
Context {env : Env}.

(** [requests.get(url, timeout=timeout)] *)
Definition requests_get (url : string) (timeout : Z) : M response := fun w =>
  let w1 := snd (emit (NetGet url timeout) w) in
  match net_get url timeout with
  | inr r => (inr r, w1)
  | inl (kind, msg) => (inl (RequestException kind msg), w1)
  end.

(** [response.raise_for_status()] *)
Definition raise_for_status (r : response) : M unit :=
  if (400 <=? status_code r) && (status_code r <? 500) then
    raise (RequestException HTTPError
             (str_Z (status_code r) +:+ " Client Error: " +:+ reason r
              +:+ " for url: " +:+ resp_url r))
  else if (500 <=? status_code r) && (status_code r <? 600) then
    raise (RequestException HTTPError
             (str_Z (status_code r) +:+ " Server Error: " +:+ reason r
              +:+ " for url: " +:+ resp_url r))
  else mret tt.

(** [sqlite3.connect(db_path)] / [duckdb.connect(db_path)] *)
Definition connect (eng : engine) (db_path : string) : M (engine * string) := fun w =>
  let w1 := snd (emit (DbConnect eng db_path) w) in
  match db_connect eng db_path (fs w1) with
  | (inr _, t) => (inr (eng, db_path), set_conns ((eng, db_path) :: open_conns w1) (set_fs t w1))
  | (inl msg, t) => (inl (LibraryError msg), set_fs t w1)
  end.

(** [cur = conn.cursor(); cur.execute(query); cur.fetchall()] *)
Definition execute_fetchall (conn : engine * string) (query : string)
  : M (list (list sql_value)) := fun w =>
  let w1 := snd (emit (DbExecute (fst conn) (snd conn) query) w) in
  match db_query (fst conn) (snd conn) query (fs w1) with
  | (inr res, t) => (inr res, set_fs t w1)
  | (inl msg, t) => (inl (LibraryError msg), set_fs t w1)
  end.

Definition conn_eqb (a b : engine * string) : bool :=
  match fst a, fst b with
  | SQLite, SQLite | DuckDB, DuckDB => String.eqb (snd a) (snd b)
  | _, _ => false
  end.

Fixpoint remove_conn (c : engine * string) (l : list (engine * string))
  : list (engine * string) :=
  match l with
  | [] => []
  | x :: l' => if conn_eqb c x then l' else x :: remove_conn c l'
  end.

(** [conn.close()] *)
Definition close (conn : engine * string) : M unit := fun w =>
  let w1 := snd (emit (DbClose (fst conn) (snd conn)) w) in
  (inr tt, set_conns (remove_conn conn (open_conns w1))
                     (set_fs (db_close (fst conn) (snd conn) (fs w1)) w1)).

(** [Image.open(path)] *)
Definition image_open (path : string) : M image :=
  data ← open_read path;
  match image_decode data with
  | inr img => mret img
  | inl msg => raise (LibraryError msg)
  end.

(** [img.save(path, optimize=True)] *)
Definition image_save (img : image) (path : string) : M unit :=
  match image_encode img path with
  | inr data => open_write path data
  | inl msg => raise (LibraryError msg)
  end.

(** [pd.read_csv(path)] *)
Definition read_csv (path : string) : M dataframe :=
  data ← open_read path;
  match csv_parse data with
  | inr df => mret df
  | inl msg => raise (LibraryError msg)
  end.

End Operations.

(** ** Tables *)

(** [a == b] on the values of a table: numbers compare by value (a boolean
    is the number 0 or 1), strings with strings; a string never equals a
    number, and a missing value equals nothing. *)
Definition py_eq (a b : cell) : bool :=
  match a, b with
  | CInt x, CInt y => x =? y
  | CInt x, CBool y | CBool y, CInt x => x =? Z.b2z y
  | CBool x, CBool y => Bool.eqb x y
  | CStr x, CStr y => String.eqb x y
  | _, _ => false
  end.

Fixpoint index_of (name : string) (l : list string) : option nat :=
  match l with
  | [] => None
  | x :: l' => if String.eqb x name then Some O
               else option_map S (index_of name l')
  end.

(** [df[name]]: the column, or [KeyError(name)], whose text is the [repr]
    of the name. *)
Definition df_getitem `{Env} (df : dataframe) (name : string) : M (list cell) :=
  match index_of name (columns df) with
  | Some i => mret (List.map (fun row => nth i row CMissing) (rows df))
  | None => raise (LibraryError (py_repr name))
  end.

Fixpoint select {A} (l : list A) (mask : list bool) : list A :=
  match l, mask with
  | x :: l', b :: mask' => if b then x :: select l' mask' else select l' mask'
  | _, _ => []
  end.

(** [df[mask]] for a boolean column [mask] *)
Definition df_select (df : dataframe) (mask : list bool) : dataframe :=
  DataFrame (columns df) (select (rows df) mask).

(** [df.to_dict(orient='records')] *)
Definition to_dict_records (df : dataframe) : list (gmap string cell) :=
  List.map (fun row => list_to_map (zip (columns df) row)) (rows df).

(** ** The module *)

Section Tasks.
Context {env : Env}.
Import PyStr Posixpath.

Definition os_path_normpath (path : string) : M string := mret (normpath path).

(** Security check to ensure file operations are restricted to [/data]. *)
Definition B12 (filepath : string) : M bool :=
  if String.eqb filepath "" then
    logger WARNING "Empty filepath provided";;
    mret false
  else
    try_except
      (normalized_path ← os_path_normpath filepath;
       if negb (startswith normalized_path "/data") then
         logger WARNING ("Access attempt outside /data directory: " +:+ filepath);;
         mret false
       else mret true)
      (fun e =>
         logger ERROR ("Security check failed for path " +:+ filepath +:+ ": " +:+ py_str e);;
         mret false).

(** Safely create directory for a file if it doesn't exist. *)
Definition create_directory_if_not_exists (filepath : string) : M unit :=
  ok ← B12 filepath;
  unless ok (SecurityError ("Cannot create directory outside /data: " +:+ filepath));;
  let directory := dirname filepath in
  if negb (String.eqb directory "") then os_makedirs directory else mret tt.

(** Fetch data from an API and save it. *)
Definition B3 (url save_path : string) : M unit :=
  try_except
    (ok ← B12 save_path;
     unless ok (SecurityError ("Invalid save path: " +:+ save_path));;
     response ← requests_get url 30;
     raise_for_status response;;
     create_directory_if_not_exists save_path;;
     open_write save_path (text response);;
     logger INFO ("Successfully fetched and saved data from " +:+ url +:+ " to " +:+ save_path))
    (fun e =>
       (if is_request_exception e
        then logger ERROR ("Failed to fetch data from " +:+ url +:+ ": " +:+ py_str e)
        else logger ERROR ("Error in B3: " +:+ py_str e));;
       raise e).

(** The engine is chosen from the end of the database path. *)
Definition engine_of (db_path : string) : engine :=
  let is_sqlite := endswith db_path ".db" in
  if is_sqlite then SQLite else DuckDB.

(** Run SQL query on SQLite or DuckDB database and save results. *)
Definition B5 (db_path query output_filename : string) : M (list (list sql_value)) :=
  try_except
    (ok ← B12 db_path;
     unless ok (SecurityError ("Invalid database path: " +:+ db_path));;
     ok' ← B12 output_filename;
     unless ok' (SecurityError ("Invalid output path: " +:+ output_filename));;
     conn ← connect (engine_of db_path) db_path;
     try_finally
       (result ← execute_fetchall conn query;
        create_directory_if_not_exists output_filename;;
        open_write output_filename (str_rows result);;
        logger INFO ("Successfully executed query and saved results to " +:+ output_filename);;
        mret result)
       (close conn))
    (fun e =>
       logger ERROR ("Error in B5: " +:+ py_str e);;
       raise e).

(** Scrape data from a website and save it. *)
Definition B6 (url output_filename : string) : M unit :=
  try_except
    (ok ← B12 output_filename;
     unless ok (SecurityError ("Invalid output path: " +:+ output_filename));;
     response ← requests_get url 30;
     raise_for_status response;;
     create_directory_if_not_exists output_filename;;
     open_write output_filename (text response);;
     logger INFO ("Successfully scraped data from " +:+ url +:+ " to " +:+ output_filename))
    (fun e =>
       (if is_request_exception e
        then logger ERROR ("Failed to scrape " +:+ url +:+ ": " +:+ py_str e)
        else logger ERROR ("Error in B6: " +:+ py_str e));;
       raise e).

(** Process an image (resize/compress). *)
Definition B7 (image_path output_path : string) (resize : option (Z * Z)) : M unit :=
  try_except
    (ok ← B12 image_path;
     unless ok (SecurityError ("Invalid image path: " +:+ image_path));;
     ok' ← B12 output_path;
     unless ok' (SecurityError ("Invalid output path: " +:+ output_path));;
     img ← image_open image_path;
     img' ← match resize with
            | Some dims =>
                match image_resize img dims with
                | inr resized => mret resized
                | inl msg => raise (LibraryError msg)
                end
            | None => mret img
            end;
     create_directory_if_not_exists output_path;;
     image_save img' output_path;;
     logger INFO ("Successfully processed image from " +:+ image_path +:+ " to " +:+ output_path))
    (fun e =>
       logger ERROR ("Error in B7: " +:+ py_str e);;
       raise e).

(** Convert Markdown to HTML. *)
Definition B9 (md_path output_path : string) : M unit :=
  try_except
    (ok ← B12 md_path;
     unless ok (SecurityError ("Invalid markdown path: " +:+ md_path));;
     ok' ← B12 output_path;
     unless ok' (SecurityError ("Invalid output path: " +:+ output_path));;
     md_content ← open_read md_path;
     let html_content := markdown_render md_content in
     create_directory_if_not_exists output_path;;
     open_write output_path html_content;;
     logger INFO ("Successfully converted markdown from " +:+ md_path +:+ " to " +:+ output_path))
    (fun e =>
       logger ERROR ("Error in B9: " +:+ py_str e);;
       raise e).

(** Filter CSV and return the matching records. *)
Definition B10 (csv_path filter_column : string) (filter_value : cell)
  : M (list (gmap string cell)) :=
  try_except
    (ok ← B12 csv_path;
     unless ok (SecurityError ("Invalid CSV path: " +:+ csv_path));;
     df ← read_csv csv_path;
     column ← df_getitem df filter_column;
     let filtered := df_select df (List.map (fun v => py_eq v filter_value) column) in
     mret (to_dict_records filtered))
    (fun e =>
       logger ERROR ("Error in B10: " +:+ py_str e);;
       raise e).

End Tasks.

(** ** A concrete environment, for running the operations *)

Definition demo_table : dataframe :=
  DataFrame ["id"; "name"] [[CInt 1; CStr "a"]; [CInt 2; CStr "b"]].

(** The names the examples use hold no quote, no backslash and no control
    character: their [repr] is the name between single quotes. *)
Definition demo_env : Env := {|
  net_get url timeout :=
    if String.eqb url "http://ok" then inr (Response 200 "OK" url "X")
    else if String.eqb url "http://missing" then inr (Response 404 "Not Found" url "gone")
    else if String.eqb url "http://cached" then inr (Response 304 "Not Modified" url "")
    else inl (ConnectionError, "unreachable");
  db_connect eng db_path t := (inr tt, t);
  db_query eng db_path query t :=
    if String.eqb query "SELECT * FROM test" then (inr [[SqlInt 1; SqlText "test"]], t)
    else (inl "syntax error", t);
  db_close eng db_path t := t;
  str_rows res := "[(1, 'test')]";
  image_decode data := inr (Image (100, 100) data);
  image_resize img dims := inr (Image dims (pixels img));
  image_encode img path := inr (pixels img);
  markdown_render md := "<p>" +:+ md +:+ "</p>";
  csv_parse data := inr demo_table;
  py_repr s := "'" +:+ s +:+ "'"
|}.

(** The same environment with a database that cannot be opened. *)
Definition offline_env : Env := {|
  net_get := net_get (Env := demo_env);
  db_connect eng db_path t := (inl "unable to open database file", t);
  db_query := db_query (Env := demo_env);
  db_close := db_close (Env := demo_env);
  str_rows := str_rows (Env := demo_env);
  image_decode := image_decode (Env := demo_env);
  image_resize := image_resize (Env := demo_env);
  image_encode := image_encode (Env := demo_env);
  markdown_render := markdown_render (Env := demo_env);
  csv_parse := csv_parse (Env := demo_env);
  py_repr := py_repr (Env := demo_env)
|}.

Definition empty_world : world := World ∅ [] [] [].

Definition demo_world : world :=
  World (<[ ["data"; "t.csv"] := NFile "id,name" ]> demo_tree) [] [] [].

(** ** The vocabulary of the statements *)

Section Vocabulary.
Context {env : Env}.
Import PyStr Posixpath.

(** The world with the lines [l] added to the log. *)
Definition add_log (l : list (level * string)) (w : world) : world :=
  World (fs w) (open_conns w) (trace w) (log w ++ l).

(** The worlds that differ in the log only. *)
Definition same_io (w w' : world) : Prop :=
  fs w' = fs w /\ trace w' = trace w /\ open_conns w' = open_conns w.

(** What the guard decides. *)
Definition accepts (filepath : string) : bool :=
  startswith (normpath filepath) "/data".

(** What the guard writes to the log. *)
Definition guard_log (filepath : string) : list (level * string) :=
  if String.eqb filepath "" then [(WARNING, "Empty filepath provided")]
  else if accepts filepath then []
  else [(WARNING, "Access attempt outside /data directory: " +:+ filepath)].

(** The outcome is a Security Fault and nothing but the log has changed: no
    network, database or file system call was made. *)
Definition security_fault_before_io {A} (w : world) (out : (exn + A) * world) : Prop :=
  (exists msg, fst out = inl (SecurityError msg)) /\ same_io w (snd out).

(** A piece of a split path: it does not begin with a slash. *)
Definition head_not_sep (c : string) : Prop :=
  match c with
  | String a _ => is_sep a = false
  | EmptyString => True
  end.

(** A name that [normpath] keeps: not empty, and no slash in front. *)
Definition proper_name (c : string) : Prop :=
  match c with
  | String a _ => is_sep a = false
  | EmptyString => False
  end.

(** A text without slash and dot, as the letters of an extension are. *)
Fixpoint plain (k : string) : Prop :=
  match k with
  | EmptyString => True
  | String a k' => is_sep a = false /\ is_dot a = false /\ plain k'
  end.

(** The normalized path names the sandbox directory or something below
    it. *)
Definition inside_sandbox (normalized : string) : bool :=
  String.eqb normalized "/data" || startswith normalized "/data/".

(** The success class of HTTP status codes. *)
Definition http_success (status : Z) : bool := (200 <=? status) && (status <? 300).

(** The messages of a fetching operation: [B3] and [B6] are one program
    text up to these. *)
Record wording := Wording {
  invalid_path : string -> string;
  succeeded : string -> string -> string;
  fetch_failed : string -> string -> string;
  other_error : string -> string
}.

Definition B3_wording : wording := {|
  invalid_path p := "Invalid save path: " +:+ p;
  succeeded url p := "Successfully fetched and saved data from " +:+ url +:+ " to " +:+ p;
  fetch_failed url msg := "Failed to fetch data from " +:+ url +:+ ": " +:+ msg;
  other_error msg := "Error in B3: " +:+ msg
|}.

Definition B6_wording : wording := {|
  invalid_path p := "Invalid output path: " +:+ p;
  succeeded url p := "Successfully scraped data from " +:+ url +:+ " to " +:+ p;
  fetch_failed url msg := "Failed to scrape " +:+ url +:+ ": " +:+ msg;
  other_error msg := "Error in B6: " +:+ msg
|}.

(** The line the handler logs for the exception [e]. *)
Definition handler_text (wd : wording) (url : string) (e : exn) : string :=
  if is_request_exception e then fetch_failed wd url (py_str e)
  else other_error wd (py_str e).

(** The program text of [B3] and [B6], the wording taken as a parameter. *)
Definition fetch_and_save (wd : wording) (url path : string) : M unit :=
  try_except
    (ok ← B12 path;
     unless ok (SecurityError (invalid_path wd path));;
     response ← requests_get url 30;
     raise_for_status response;;
     create_directory_if_not_exists path;;
     open_write path (text response);;
     logger INFO (succeeded wd url path))
    (fun e =>
       (if is_request_exception e
        then logger ERROR (fetch_failed wd url (py_str e))
        else logger ERROR (other_error wd (py_str e)));;
       raise e).

(** The world after the GET has been sent. *)
Definition sent (url : string) (w : world) : world :=
  World (fs w) (open_conns w) (trace w ++ [NetGet url 30]) (log w).

(** The exception [e] leaves through the handler: one line in the log. *)
Definition failed (wd : wording) (url : string) (e : exn) (w : world)
  : (exn + unit) * world :=
  (inl e, add_log [(ERROR, handler_text wd url e)] w).

(** A computation that opens and closes no connection, and only adds to the
    trace. *)
Definition keeps_conns {A} (m : M A) : Prop :=
  forall w, open_conns (snd (m w)) = open_conns w /\
            exists evs, trace (snd (m w)) = (trace w ++ evs)%list.

(** The block of [B5] that runs while the connection is open. *)
Definition B5_body (conn : engine * string) (query output_filename : string)
  : M (list (list sql_value)) :=
  result ← execute_fetchall conn query;
  create_directory_if_not_exists output_filename;;
  open_write output_filename (str_rows result);;
  logger INFO ("Successfully executed query and saved results to " +:+ output_filename);;
  mret result.

(** The exception [e] leaves [B5] through its handler. *)
Definition B5_failed (e : exn) (w : world) : (exn + list (list sql_value)) * world :=
  (inl e, add_log [(ERROR, "Error in B5: " +:+ py_str e)] w).

(** An outcome that is not a Security Fault. *)
Definition not_security {A} (r : exn + A) : Prop :=
  match r with
  | inl e => is_security_error e = false
  | inr _ => True
  end.

(** A computation that raises no Security Fault, in any world. *)
Definition no_security {A} (m : M A) : Prop :=
  forall w, not_security (fst (m w)).

(** The guard accepts [filepath], its normal form is not inside [/data], and
    no operation answers it with a Security Fault. *)
Definition escapes (filepath : string) : Prop :=
  (forall w, fst (B12 filepath w) = inr true) /\
  inside_sandbox (normpath filepath) = false /\
  (forall url, no_security (B3 url filepath)) /\
  (forall query, no_security (B5 filepath query filepath)) /\
  (forall url, no_security (B6 url filepath)) /\
  (forall resize, no_security (B7 filepath filepath resize)) /\
  no_security (B9 filepath filepath) /\
  (forall column value, no_security (B10 filepath column value)).

(** One name of a path, followed on the text alone: an empty name or a dot
    stays, two dots drop the last name, any other name is added. *)
Definition lex_step (cur : list string) (c : string) : list string :=
  if Fs.is_skip c then cur
  else if String.eqb c ".." then removelast cur
  else (cur ++ [c])%list.


(** No name of the list is the two dots. *)
Definition no_dotdot (l : list string) : Prop :=
  Forall (fun c => String.eqb c ".." = false) l.

(** An outcome that, when it is an exception, left an ERROR line ending in
    the text of the exception as the last line of the log. *)
Definition error_logged {A} (out : (exn + A) * world) : Prop :=
  match fst out with
  | inl e => exists pre, last (log (snd out)) = Some (ERROR, pre +:+ py_str e)
  | inr _ => True
  end.

(** [img.resize(resize)] when dimensions are given: the image that [B7]
    saves. *)
Definition resized {env : Env} (img : image) (resize : option (Z * Z)) : string + image :=
  match resize with
  | Some dims => image_resize img dims
  | None => inr img
  end.

(** The exception [e] leaves [B10] through its handler. *)
Definition B10_failed (e : exn) (w : world) : (exn + list (gmap string cell)) * world :=
  (inl e, add_log [(ERROR, "Error in B10: " +:+ py_str e)] w).

(** The world after the file [path] has been opened for reading. *)
Definition opened (path : string) (w : world) : world :=
  World (fs w) (open_conns w) (trace w ++ [FsOpenRead path]) (log w).

(** The tree [t'] is the tree [t] with more directories: what [t] holds is
    in [t'] as it is, and what [t'] holds more is a directory. *)
Definition grows (t t' : gmap (list string) node) : Prop :=
  (forall k v, t !! k = Some v -> t' !! k = Some v) /\
  (forall k v, t' !! k = Some v -> t !! k = Some v \/ v = NDir).

End Vocabulary.

(** ** The library calls at work *)

Example normpath_ex1 : Posixpath.normpath "/data/../etc/passwd" = "/etc/passwd".
Proof. reflexivity. Qed.
Example normpath_ex2 : Posixpath.normpath "//data/x" = "//data/x".
Proof. reflexivity. Qed.
Example normpath_ex3 : Posixpath.normpath "///data//x/./y/" = "/data/x/y".
Proof. reflexivity. Qed.
Example normpath_ex4 : Posixpath.normpath "a/../../b" = "../b".
Proof. reflexivity. Qed.
Example normpath_ex5 : Posixpath.normpath "/.." = "/".
Proof. reflexivity. Qed.
Example dirname_ex1 : Posixpath.dirname "/data/a/b.txt" = "/data/a".
Proof. reflexivity. Qed.
Example dirname_ex2 : Posixpath.dirname "/data" = "/".
Proof. reflexivity. Qed.
Example dirname_ex3 : Posixpath.dirname "/data//x" = "/data".
Proof. reflexivity. Qed.
Example dirname_ex4 : Posixpath.dirname "x" = "".
Proof. reflexivity. Qed.
Example dirname_ex5 : Posixpath.dirname "/data/" = "/data".
Proof. reflexivity. Qed.
Example extension_ex :
  Posixpath.extension "/data/a.b/c.tar.db" = ".db" /\ Posixpath.extension "/data/a.db/c" = ""
  /\ Posixpath.extension "/data/.db" = ".db" /\ Posixpath.extension "/data/x.db/" = "".
Proof. repeat split; reflexivity. Qed.
Example endswith_ex : PyStr.endswith "/data/a.db" ".db" = true /\ PyStr.endswith "db" ".db" = false.
Proof. split; reflexivity. Qed.
Example makedirs_ex1 :
  Fs.makedirs demo_tree "/data/a/../b" =
  (None, <[ ["data"; "b"] := NDir ]> (<[ ["data"; "a"] := NDir ]> demo_tree)).
Proof. reflexivity. Qed.
Example makedirs_ex2 :
  Fs.makedirs demo_tree "/data/old.txt/x"
  = (Some (Errno ENOTDIR, "/data/old.txt/x"), demo_tree).
Proof. reflexivity. Qed.
Example makedirs_ex3 :
  Fs.makedirs demo_tree "/data/m/n/"
  = (None, <[ ["data"; "m"; "n"] := NDir ]> (<[ ["data"; "m"] := NDir ]> demo_tree)).
Proof. reflexivity. Qed.
Example makedirs_ex4 :
  Fs.makedirs demo_tree "/data/m/x/old.txt"
  = (None, <[ ["data"; "m"; "x"; "old.txt"] := NDir ]>
             (<[ ["data"; "m"; "x"] := NDir ]> (<[ ["data"; "m"] := NDir ]> demo_tree))).
Proof. reflexivity. Qed.
(** The error of a head that is a file is dropped, and a tail that is a dot
    ends the call: the first call returns, the second one does not. *)
Example makedirs_ex5 :
  Fs.makedirs demo_tree "/data/m/../old.txt/."
  = (None, <[ ["data"; "m"] := NDir ]> demo_tree)
  /\ Fs.makedirs (<[ ["data"; "m"] := NDir ]> demo_tree) "/data/m/../old.txt/."
     = (Some (Errno ENOTDIR, "/data/m/../old.txt/."), <[ ["data"; "m"] := NDir ]> demo_tree).
Proof. split; reflexivity. Qed.
Example makedirs_ex6 :
  Fs.makedirs demo_tree "/data/m/../old.txt"
  = (Some (Errno EEXIST, "/data/m/../old.txt"), <[ ["data"; "m"] := NDir ]> demo_tree).
Proof. reflexivity. Qed.
Example makedirs_ex7 :
  Fs.makedirs demo_tree ("/data/a" +:+ String "000"%char "b/c")
  = (Some (NullByte, "/data/a" +:+ String "000"%char "b"), demo_tree).
Proof. reflexivity. Qed.
Example mkdir_ex :
  Fs.mkdir demo_tree "/data/." = inl (Errno EEXIST)
  /\ Fs.mkdir demo_tree "/data/old.txt/" = inl (Errno EEXIST)
  /\ Fs.mkdir demo_tree "/data/old.txt/." = inl (Errno ENOTDIR)
  /\ Fs.mkdir demo_tree "/data/m/n" = inl (Errno ENOENT)
  /\ Fs.mkdir demo_tree "/data/m//" = inr (<[ ["data"; "m"] := NDir ]> demo_tree).
Proof. repeat split; reflexivity. Qed.
Example stat_ex :
  Fs.exists_ demo_tree "/data/old.txt" = true /\ Fs.isdir demo_tree "/data/old.txt" = false
  /\ Fs.exists_ demo_tree "/data/old.txt/" = false /\ Fs.isdir demo_tree "/data/../data/" = true
  /\ Fs.exists_ demo_tree "/data/m/.." = false /\ Fs.isdir demo_tree "///" = true.
Proof. repeat split; reflexivity. Qed.
Example path_split_ex :
  Posixpath.path_split "/data/a/b.txt" = ("/data/a", "b.txt")
  /\ Posixpath.path_split "/data//" = ("/data", "")
  /\ Posixpath.path_split "//x" = ("//", "x")
  /\ Posixpath.path_split "x" = ("", "x")
  /\ Fs.makedirs_parts "/data/a//" = ("/data", "a").
Proof. repeat split; reflexivity. Qed.
Example write_ex1 :
  Fs.write_text demo_tree "/data/" "X" = inl EISDIR.
Proof. reflexivity. Qed.
Example write_ex3 :
  Fs.write_text demo_tree "/data/m/" "X" = inl (Errno EISDIR)
  /\ Fs.write_text demo_tree "/data/old.txt/f" "X" = inl (Errno ENOTDIR)
  /\ Fs.write_text demo_tree "/data/m/f" "X" = inl (Errno ENOENT)
  /\ Fs.write_text demo_tree (String "000"%char "") "X" = inl NullByte.
Proof. repeat split; reflexivity. Qed.
Example write_ex2 :
  Fs.write_text demo_tree "/data/old.txt" "X" = inr (<[ ["data"; "old.txt"] := NFile "X" ]> demo_tree).
Proof. reflexivity. Qed.
Example read_ex1 :
  Fs.read_text demo_tree "/data/./old.txt" = inr "old".
Proof. reflexivity. Qed.

(** ** Running the monad *)

Lemma bind_run {A B} (m : M A) (f : A -> M B) (w : world) :
  (m ≫= f) w = match m w with
               | (inr a, w') => f a w'
               | (inl e, w') => (inl e, w')
               end.
Proof. reflexivity. Qed.

Lemma same_io_refl w : same_io w w.
Proof. by repeat split. Qed.

Lemma same_io_add_log l w : same_io w (add_log l w).
Proof. by repeat split. Qed.

Lemma same_io_trans w1 w2 w3 : same_io w1 w2 -> same_io w2 w3 -> same_io w1 w3.
Proof.
  intros (Ha & Hb & Hc) (Hd & He & Hf). repeat split; congruence.
Qed.

Lemma add_log_nil w : add_log [] w = w.
Proof. destruct w; unfold add_log; simpl. by rewrite app_nil_r. Qed.

(** ** The path guard *)

Section Guard.
Context {env : Env}.
Import PyStr Posixpath.

Lemma B12_run filepath w :
  B12 filepath w = (inr (accepts filepath), add_log (guard_log filepath) w).
Proof.
  unfold B12, guard_log, accepts.
  destruct (String.eqb filepath "") eqn:He.
  - apply String.eqb_eq in He. subst filepath. reflexivity.
  - unfold try_except, os_path_normpath. rewrite bind_run. cbn [mret M_ret].
    destruct (startswith (normpath filepath) "/data"); cbn.
    + by rewrite add_log_nil.
    + reflexivity.
Qed.

Lemma B12_accepted filepath w :
  accepts filepath = true -> B12 filepath w = (inr true, w).
Proof.
  intros Ha. rewrite B12_run, Ha. unfold guard_log. rewrite Ha.
  destruct (String.eqb filepath "") eqn:He.
  - apply String.eqb_eq in He. subst. discriminate.
  - by rewrite add_log_nil.
Qed.

Lemma prefix_app (p s : string) :
  String.prefix p s = true <-> exists rest, s = p +:+ rest.
Proof.
  revert s. induction p as [|c p IH]; intros s.
  - split; [intros _; exists s; reflexivity | intros _; by destruct s].
  - destruct s as [|d s]; simpl.
    + split; [done | intros [rest Hr]; discriminate].
    + destruct (Ascii.ascii_dec c d) as [->|Hne].
      * rewrite IH. split; intros [rest Hr]; exists rest.
        -- by rewrite Hr.
        -- by injection Hr.
      * split; [done | intros [rest Hr]; by injection Hr].
Qed.

(** *** Accepted paths are absolute *)

Lemma append_cons (a : ascii) (s t : string) :
  String a s +:+ t = String a (s +:+ t).
Proof. reflexivity. Qed.

Lemma prefix_cons (a b : ascii) (p s : string) :
  String.prefix (String a p) (String b s) =
  if Ascii.ascii_dec a b then String.prefix p s else false.
Proof. reflexivity. Qed.

Lemma split_head_not_sep s : Forall head_not_sep (split s).
Proof.
  induction s as [|c s IH]; simpl.
  - by repeat constructor.
  - destruct (is_sep c) eqn:Hc.
    + by constructor.
    + destruct (split s) as [|piece pieces]; [by repeat constructor|].
      inversion IH; subst. by constructor.
Qed.

Lemma Forall_removelast {A} (P : A -> Prop) (l : list A) :
  Forall P l -> Forall P (removelast l).
Proof.
  induction 1 as [|x l Hx Hl IH]; simpl; [done|].
  destruct l; [done | by constructor].
Qed.

Lemma normpath_step_proper init comps comp :
  Forall proper_name comps -> head_not_sep comp ->
  Forall proper_name (normpath_step init comps comp).
Proof.
  intros Hc Hh. unfold normpath_step.
  destruct (String.eqb comp "") eqn:He; [done|]. cbn [orb].
  destruct (String.eqb comp "."); [done|].
  assert (proper_name comp) as Hp.
  { destruct comp; [by rewrite String.eqb_refl in He | done]. }
  destruct (_ || _).
  - apply Forall_app. split; [done | by constructor].
  - destruct (negb (is_nil comps)); [by apply Forall_removelast | done].
Qed.

Lemma normpath_fold_proper init l : forall comps,
  Forall proper_name comps -> Forall head_not_sep l ->
  Forall proper_name (fold_left (normpath_step init) l comps).
Proof.
  induction l as [|c l IH]; intros comps Hc Hl; simpl; [done|].
  inversion Hl; subst. apply IH; [by apply normpath_step_proper | done].
Qed.

Lemma join_proper_no_data comps :
  Forall proper_name comps -> startswith (join comps) "/data" = false.
Proof.
  intros Hc. destruct Hc as [|c comps Hc _]; [done|].
  destruct c as [|a c]; [done|]. simpl in Hc.
  assert (startswith (String a c +:+ String sep (join comps)) "/data" = false
          /\ startswith (String a c) "/data" = false) as [H1 H2].
  { unfold startswith. rewrite append_cons, !(prefix_cons "/" a).
    destruct (Ascii.ascii_dec "/" a) as [<-|]; [done | by split]. }
  cbn [join]. by destruct comps.
Qed.

Lemma accepts_absolute filepath :
  accepts filepath = true -> startswith filepath "/" = true.
Proof.
  unfold accepts, normpath.
  destruct (String.eqb filepath ""); [done|].
  cbv zeta. unfold initial_slashes.
  destruct (startswith filepath "/"); [done|]. cbn [Nat.eqb].
  set (comps := fold_left _ _ _).
  assert (startswith (join comps) "/data" = false) as Hj; [apply join_proper_no_data|].
  - apply normpath_fold_proper; [constructor | apply split_head_not_sep].
  - destruct (String.eqb (join comps) ""); [done | congruence].
Qed.

Lemma drop_to_sep_snoc l : drop_to_sep (l ++ [sep]) <> [].
Proof.
  induction l as [|c l IH]; simpl; [done|]. by destruct (is_sep c).
Qed.

Lemma drop_seps_nonempty l : forallb is_sep l = false -> drop_seps l <> [].
Proof.
  induction l as [|c l IH]; simpl; [done|]. by destruct (is_sep c).
Qed.

Lemma forallb_rev {A} (f : A -> bool) l : forallb f (List.rev l) = forallb f l.
Proof.
  induction l as [|x l IH]; simpl; [done|].
  rewrite forallb_app, IH. simpl. rewrite andb_true_r. apply andb_comm.
Qed.

Lemma string_of_list_nonempty l : l <> [] -> string_of_list_ascii l <> "".
Proof. by destruct l. Qed.

Lemma rev_nonempty {A} (l : list A) : l <> [] -> List.rev l <> [].
Proof.
  destruct l as [|x l]; [done|]. simpl. intros _ H.
  by apply app_eq_nil in H as [_ ?].
Qed.

(** The directory of an absolute path is never empty: the directory
    ensurer always has a directory to create. *)
Lemma dirname_absolute filepath :
  startswith filepath "/" = true -> String.eqb (dirname filepath) "" = false.
Proof.
  intros Ha. destruct filepath as [|a rest]; [done|].
  unfold startswith in Ha. rewrite prefix_cons in Ha.
  destruct (Ascii.ascii_dec "/" a) as [<-|]; [|done].
  assert (upto_last_sep (String "/" rest) <> "") as Hhead.
  { unfold upto_last_sep. apply string_of_list_nonempty, rev_nonempty.
    simpl. apply drop_to_sep_snoc. }
  apply String.eqb_neq. unfold dirname.
  destruct (negb _ && negb (all_seps _)) eqn:Hc; [|done].
  apply andb_true_iff in Hc as [_ Hc]. apply negb_true_iff in Hc.
  unfold rstrip_sep. apply string_of_list_nonempty, rev_nonempty, drop_seps_nonempty.
  by rewrite forallb_rev.
Qed.

Lemma accepts_dirname filepath :
  accepts filepath = true -> String.eqb (dirname filepath) "" = false.
Proof. intros Ha. by apply dirname_absolute, accepts_absolute. Qed.

End Guard.

(** ** Strings and paths: lemmas *)

Module PathFacts.
Import PyStr Posixpath.

Lemma append_nil_r (s : string) : s +:+ "" = s.
Proof. induction s as [|c s IH]; [done|]. by rewrite append_cons, IH. Qed.

Lemma append_assoc (a b c : string) : (a +:+ b) +:+ c = a +:+ (b +:+ c).
Proof. induction a as [|x a IH]; [done|]. by rewrite !append_cons, IH. Qed.

Lemma append_length (a b : string) :
  String.length (a +:+ b) = (String.length a + String.length b)%nat.
Proof.
  induction a as [|x a IH]; [done|]. rewrite append_cons. cbn [String.length].
  by rewrite IH.
Qed.

Lemma string_of_list_app (a b : list ascii) :
  string_of_list_ascii (a ++ b)
  = string_of_list_ascii a +:+ string_of_list_ascii b.
Proof.
  induction a as [|c a IH]; [done|].
  cbn [app string_of_list_ascii]. by rewrite append_cons, IH.
Qed.

Lemma list_of_string_app (a b : string) :
  list_ascii_of_string (a +:+ b)
  = (list_ascii_of_string a ++ list_ascii_of_string b)%list.
Proof.
  induction a as [|c a IH]; [done|].
  rewrite append_cons. cbn [app list_ascii_of_string]. by rewrite IH.
Qed.

Lemma string_of_repeat_sep k : string_of_list_ascii (List.repeat sep k) = repeat_sep k.
Proof. induction k as [|k IH]; [done|]. cbn [List.repeat string_of_list_ascii repeat_sep]. by rewrite IH. Qed.

Lemma rev_repeat_sep k : List.rev (List.repeat sep k) = List.repeat sep k.
Proof.
  induction k as [|k IH]; [done|]. cbn [List.repeat List.rev]. rewrite IH.
  clear IH. induction k as [|k IH]; [done|]. cbn [List.repeat app]. by rewrite IH.
Qed.

Lemma is_sep_eq c : is_sep c = true -> c = sep.
Proof. unfold is_sep. by intros ?%Ascii.eqb_eq. Qed.

Lemma is_sep_sep : is_sep sep = true.
Proof. reflexivity. Qed.

(** *** The pieces of a text between slashes *)

Lemma split_nonempty s : split s <> [].
Proof.
  destruct s as [|c s]; cbn [split]; [done|].
  destruct (is_sep c); [done|]. by destruct (split s).
Qed.

Lemma split_app_sep a b : split (a +:+ String sep b) = (split a ++ split b)%list.
Proof.
  induction a as [|c a IH]; [reflexivity|].
  rewrite append_cons. cbn [split]. rewrite IH.
  destruct (is_sep c); [done|].
  pose proof (split_nonempty a). by destruct (split a).
Qed.

Lemma split_no_sep s : no_sep s = true -> split s = [s].
Proof.
  induction s as [|c s IH]; [done|]. unfold no_sep.
  cbn [list_ascii_of_string forallb split].
  intros [Hc Hs]%andb_true_iff. apply negb_true_iff in Hc. rewrite Hc.
  by rewrite (IH Hs).
Qed.

Lemma names_app_sep a b :
  Fs.names (a +:+ String sep b) = (Fs.names a ++ Fs.names b)%list.
Proof. unfold Fs.names. by rewrite split_app_sep, List.filter_app. Qed.

Lemma names_no_sep s :
  no_sep s = true -> Fs.names s = if String.eqb s "" then [] else [s].
Proof.
  intros H. unfold Fs.names. rewrite (split_no_sep _ H).
  cbn [List.filter]. unfold Fs.is_name. by destruct (String.eqb s "").
Qed.

Lemma names_seps_app a b : all_seps a = true -> Fs.names (a +:+ b) = Fs.names b.
Proof.
  induction a as [|c a IH]; [done|]. unfold all_seps.
  cbn [list_ascii_of_string forallb]. intros [Hc Ha]%andb_true_iff.
  rewrite append_cons. unfold Fs.names. cbn [split]. rewrite Hc.
  cbn [List.filter]. change (Fs.is_name "") with false. cbn iota.
  by apply IH.
Qed.

Lemma names_all_seps a : all_seps a = true -> Fs.names a = [].
Proof. intros H. rewrite <- (append_nil_r a). by rewrite names_seps_app. Qed.

Lemma names_repeat_sep_app k b : Fs.names (repeat_sep k +:+ b) = Fs.names b.
Proof.
  apply names_seps_app. unfold all_seps.
  induction k as [|k IH]; [done|]. cbn [repeat_sep list_ascii_of_string forallb].
  by rewrite IH.
Qed.

Lemma names_are_names p : Forall (fun c => c <> "") (Fs.names p).
Proof.
  unfold Fs.names. apply List.Forall_forall. intros c [_ Hc]%List.filter_In.
  unfold Fs.is_name in Hc. intros ->. done.
Qed.

(** *** [os.path.split] *)

Lemma take_drop_to_sep l : (take_to_sep l ++ drop_to_sep l)%list = l.
Proof.
  induction l as [|c l IH]; [done|]. cbn [take_to_sep drop_to_sep].
  destruct (is_sep c); [done|]. cbn [app]. by rewrite IH.
Qed.

Lemma take_to_sep_no_sep l :
  forallb (fun c => negb (is_sep c)) (take_to_sep l) = true.
Proof.
  induction l as [|c l IH]; [done|]. cbn [take_to_sep].
  destruct (is_sep c) eqn:Hc; [done|]. cbn [forallb]. by rewrite Hc, IH.
Qed.

Lemma drop_to_sep_head l :
  drop_to_sep l = [] \/ exists l', drop_to_sep l = sep :: l'.
Proof.
  induction l as [|c l IH]; [by left|]. cbn [drop_to_sep].
  destruct (is_sep c) eqn:Hc; [|done].
  right. exists l. by rewrite (is_sep_eq _ Hc).
Qed.

Lemma drop_seps_spec l :
  exists k, l = (List.repeat sep k ++ drop_seps l)%list.
Proof.
  induction l as [|c l [k IH]]; [by exists 0%nat|]. cbn [drop_seps].
  destruct (is_sep c) eqn:Hc.
  - exists (S k). cbn [List.repeat app]. by rewrite (is_sep_eq _ Hc), <- IH.
  - by exists 0%nat.
Qed.

(** A path is its head, then slashes, then its tail; the tail holds no
    slash; slashes are missing between the two only when the head is made of
    slashes, or empty. *)
Lemma path_split_spec p :
  exists k, p = fst (path_split p) +:+ repeat_sep k +:+ snd (path_split p)
       /\ no_sep (snd (path_split p)) = true
       /\ (k = 0%nat -> all_seps (fst (path_split p)) = true).
Proof.
  unfold path_split, upto_last_sep, after_last_sep. cbn [fst snd].
  set (rl := List.rev (list_ascii_of_string p)).
  set (D := drop_to_sep rl). set (T := take_to_sep rl).
  assert (p = string_of_list_ascii (List.rev D) +:+ string_of_list_ascii (List.rev T)) as Hp.
  { rewrite <- string_of_list_app, <- rev_app_distr. unfold D, T.
    rewrite take_drop_to_sep. unfold rl. rewrite rev_involutive.
    symmetry. apply string_of_list_ascii_of_string. }
  assert (no_sep (string_of_list_ascii (List.rev T)) = true) as Hns.
  { unfold no_sep. rewrite list_ascii_of_string_of_list_ascii, forallb_rev.
    apply take_to_sep_no_sep. }
  destruct (negb (String.eqb (string_of_list_ascii (List.rev D)) "")
            && negb (all_seps (string_of_list_ascii (List.rev D)))) eqn:Hc.
  - apply andb_true_iff in Hc as [Hne _].
    unfold rstrip_sep. rewrite list_ascii_of_string_of_list_ascii, rev_involutive.
    destruct (drop_to_sep_head rl) as [HD|[D0 HD]]; fold D in HD.
    { rewrite HD in Hne. done. }
    destruct (drop_seps_spec D0) as [k Hk].
    exists (S k). split; [|split; [done|done]].
    rewrite Hp at 1. rewrite <- append_assoc. f_equal.
    rewrite HD. cbn [drop_seps]. rewrite is_sep_sep.
    rewrite <- string_of_repeat_sep, <- string_of_list_app.
    rewrite <- (rev_repeat_sep (S k)), <- rev_app_distr.
    cbn [List.repeat app]. by rewrite <- Hk.
  - exists 0%nat. split; [|split; [done|]].
    + by rewrite Hp at 1.
    + intros _. apply andb_false_iff in Hc as [Hc|Hc].
      * apply negb_false_iff, String.eqb_eq in Hc. by rewrite Hc.
      * by apply negb_false_iff in Hc.
Qed.

Lemma path_split_names p :
  Fs.names p = (Fs.names (fst (path_split p)) ++ Fs.names (snd (path_split p)))%list.
Proof.
  destruct (path_split_spec p) as (k & Hp & Hns & Hk).
  rewrite Hp at 1. destruct k as [|k].
  - cbn [repeat_sep].
    rewrite names_seps_app by by apply Hk.
    rewrite (names_all_seps (fst (path_split p))) by by apply Hk. reflexivity.
  - cbn [repeat_sep]. rewrite append_cons, names_app_sep.
    by rewrite names_repeat_sep_app.
Qed.

Lemma path_split_length p :
  (String.length (fst (path_split p)) + String.length (snd (path_split p))
   <= String.length p)%nat.
Proof.
  destruct (path_split_spec p) as (k & Hp & _).
  rewrite Hp at 3. rewrite !append_length. lia.
Qed.

Lemma has_nul_app a b : Fs.has_nul (a +:+ b) = Fs.has_nul a || Fs.has_nul b.
Proof. unfold Fs.has_nul. by rewrite list_of_string_app, existsb_app. Qed.

Lemma path_split_nul p :
  Fs.has_nul p = false -> Fs.has_nul (fst (path_split p)) = false.
Proof.
  destruct (path_split_spec p) as (k & Hp & _).
  rewrite Hp at 1. rewrite has_nul_app. by intros [? _]%orb_false_iff.
Qed.

(** *** The two parts [os.makedirs] works with *)

Lemma makedirs_parts_names name head tail :
  Fs.makedirs_parts name = (head, tail) -> tail <> "" ->
  Fs.names name = (Fs.names head ++ [tail])%list.
Proof.
  unfold Fs.makedirs_parts.
  destruct (path_split name) as [h1 t1] eqn:H1.
  pose proof (path_split_names name) as Hn. rewrite H1 in Hn. cbn [fst snd] in Hn.
  destruct (String.eqb t1 "") eqn:Ht1.
  - apply String.eqb_eq in Ht1. subst t1.
    intros H2 Hne. rewrite Hn. change (Fs.names "") with (@nil string).
    rewrite app_nil_r.
    pose proof (path_split_names h1) as Hn2.
    destruct (path_split_spec h1) as (k & _ & Hns & _).
    rewrite H2 in Hn2, Hns. cbn [fst snd] in Hn2, Hns.
    rewrite Hn2, (names_no_sep _ Hns).
    by destruct (String.eqb_spec tail "").
  - intros [= <- <-] Hne. rewrite Hn.
    destruct (path_split_spec name) as (k & _ & Hns & _).
    rewrite H1 in Hns. cbn [snd] in Hns.
    by rewrite (names_no_sep _ Hns), Ht1.
Qed.

Lemma makedirs_parts_length name head tail :
  Fs.makedirs_parts name = (head, tail) -> tail <> "" ->
  (String.length head < String.length name)%nat.
Proof.
  unfold Fs.makedirs_parts.
  destruct (path_split name) as [h1 t1] eqn:H1.
  pose proof (path_split_length name) as Hl. rewrite H1 in Hl. cbn [fst snd] in Hl.
  destruct (String.eqb t1 "") eqn:Ht1.
  - intros H2 Hne.
    pose proof (path_split_length h1) as Hl2. rewrite H2 in Hl2. cbn [fst snd] in Hl2.
    destruct tail; [done|]. cbn [String.length] in Hl2. lia.
  - intros [= <- <-] Hne. destruct t1; [done|]. cbn [String.length] in Hl. lia.
Qed.

Lemma makedirs_parts_nul name head tail :
  Fs.makedirs_parts name = (head, tail) ->
  Fs.has_nul name = false -> Fs.has_nul head = false.
Proof.
  unfold Fs.makedirs_parts.
  destruct (path_split name) as [h1 t1] eqn:H1.
  pose proof (path_split_nul name) as Hl. rewrite H1 in Hl. cbn [fst] in Hl.
  destruct (String.eqb t1 "").
  - intros H2 Hnul. pose proof (path_split_nul h1 (Hl Hnul)) as Hl2.
    by rewrite H2 in Hl2.
  - intros [= <- <-]. exact Hl.
Qed.

End PathFacts.

(** ** The file system calls: lemmas *)

Module FsFacts.
Import PyStr Posixpath Fs PathFacts.

Lemma snoc_not_nil (cur : list string) (c : string) : (cur ++ [c])%list <> [].
Proof. by destruct cur. Qed.

(** *** Resolution *)

Lemma walk_app t a : forall cur b,
  walk t cur (a ++ b) = match walk t cur a with
                        | inr d => walk t d b
                        | inl e => inl e
                        end.
Proof.
  induction a as [|c a IH]; intros cur b; [done|]. cbn [app walk].
  destruct (is_skip c); [by apply IH|].
  destruct (String.eqb c ".."); [by apply IH|].
  destruct (too_long c); [done|].
  destruct (t !! (cur ++ [c])%list) as [[data|]|]; auto.
Qed.

(** Putting a node where no directory was does not disturb the resolution
    of a path. *)
Lemma walk_insert comps : forall t cur d loc v,
  walk t cur comps = inr d ->
  t !! loc <> Some NDir ->
  walk (<[loc := v]> t) cur comps = inr d.
Proof.
  induction comps as [|c rest IH]; intros t cur d loc v Hw Hloc; cbn [walk] in *; [done|].
  destruct (is_skip c); [by eapply IH|].
  destruct (String.eqb c ".."); [by eapply IH|].
  destruct (too_long c); [done|].
  destruct (t !! (cur ++ [c])%list) as [[data'|]|] eqn:Hc; try done.
  rewrite lookup_insert_ne; [|intros ->; congruence].
  rewrite Hc. by eapply IH.
Qed.

Lemma resolve_insert t path tg loc v :
  resolve t path = inr tg ->
  t !! loc <> Some NDir ->
  resolve (<[loc := v]> t) path = inr tg.
Proof.
  unfold resolve. destruct (check_path path); [done|].
  destruct (walk t [] (removelast (names path))) as [e|d] eqn:Hw; [done|].
  intros Hl Hloc. by rewrite (walk_insert _ _ _ _ _ v Hw Hloc).
Qed.

(** A path is a directory when all its names can be walked. *)
Lemma isdir_walk t p :
  isdir t p = match check_path p with
              | Some _ => false
              | None => match walk t [] (names p) with
                        | inr _ => true
                        | inl _ => false
                        end
              end.
Proof.
  unfold isdir, stat, resolve. destruct (check_path p); [done|].
  pose proof (names_are_names p) as Hn.
  generalize dependent (names p). intros l Hn.
  destruct l as [|c l _] using rev_ind; [done|].
  rewrite removelast_last, last_snoc, walk_app.
  apply Forall_app in Hn as [_ Hc]. inversion Hc as [|? ? Hc' _]; subst.
  destruct (walk t [] l) as [e|d]; [done|].
  cbn [walk]. unfold is_skip.
  destruct (String.eqb_spec c ""); [done|]. cbn [orb].
  destruct (String.eqb c "."); [done|].
  destruct (String.eqb c ".."); [done|].
  destruct (too_long c); [done|].
  destruct (t !! (d ++ [c])%list) as [[data|]|]; try done.
  by destruct (endswith p "/").
Qed.

Lemma isdir_exists t p : isdir t p = true -> exists_ t p = true.
Proof. unfold isdir, exists_. by destruct (stat t p) as [e|[data|]]. Qed.

Lemma exists_mkdir t p : exists_ t p = true -> mkdir t p = inl (Errno EEXIST).
Proof.
  unfold exists_, stat, mkdir.
  destruct (resolve t p) as [e|[loc|d c tr]]; [done|done|].
  destruct (too_long c); [done|].
  by destruct (t !! (d ++ [c])%list) as [[data|]|].
Qed.

Lemma mkdir_NullByte t p : mkdir t p = inl NullByte -> isdir t p = false.
Proof.
  unfold mkdir, isdir, stat.
  destruct (resolve t p) as [e|[loc|d c tr]]; [by intros [= ->]|done|].
  destruct (too_long c); [done|].
  by destruct (t !! (d ++ [c])%list).
Qed.

(** The directory [mkdir] has made is a directory. *)
Lemma mkdir_isdir t p t' : mkdir t p = inr t' -> isdir t' p = true.
Proof.
  unfold mkdir. destruct (resolve t p) as [e|[loc|d c tr]] eqn:Hr; [done|done|].
  destruct (too_long c) eqn:Hc; [done|].
  destruct (t !! (d ++ [c])%list) eqn:Hl; [done|].
  intros [= <-]. unfold isdir, stat.
  rewrite (resolve_insert _ _ _ _ NDir Hr) by by rewrite Hl.
  by rewrite Hc, lookup_insert_eq.
Qed.

(** [mkdir] adds one directory, at a place where nothing was. *)
Lemma mkdir_adds t p t' :
  mkdir t p = inr t' -> exists loc, t !! loc = None /\ t' = <[loc := NDir]> t.
Proof.
  unfold mkdir. destruct (resolve t p) as [e|[loc|d c tr]]; [done|done|].
  destruct (too_long c); [done|].
  destruct (t !! (d ++ [c])%list) eqn:Hl; [done|].
  intros [= <-]. by eexists.
Qed.

(** *** The head of a name *)

Lemma check_path_head name head tail :
  makedirs_parts name = (head, tail) -> tail <> "" -> head <> "" ->
  check_path name = None -> check_path head = None.
Proof.
  intros Hp Ht Hh. unfold check_path.
  destruct (has_nul name) eqn:Hnul; [done|].
  rewrite (makedirs_parts_nul _ _ _ Hp Hnul).
  destruct (String.eqb name ""); [done|].
  destruct (String.eqb_spec head ""); [done|].
  pose proof (makedirs_parts_length _ _ _ Hp Ht) as Hlen.
  unfold PATH_MAX.
  destruct (4096 <=? Z.of_nat (String.length name)) eqn:Hl; [done|].
  intros _. apply Z.leb_gt in Hl.
  destruct (4096 <=? Z.of_nat (String.length head)) eqn:Hl'; [|done].
  apply Z.leb_le in Hl'. lia.
Qed.

(** A directory is in a directory. *)
Lemma isdir_head t name head tail :
  makedirs_parts name = (head, tail) -> tail <> "" -> head <> "" ->
  isdir t name = true -> isdir t head = true.
Proof.
  intros Hp Ht Hh. rewrite !isdir_walk.
  destruct (check_path name) eqn:Hc; [done|].
  rewrite (check_path_head _ _ _ Hp Ht Hh Hc).
  rewrite (makedirs_parts_names _ _ _ Hp Ht), walk_app.
  by destruct (walk t [] (names head)).
Qed.

(** [mkdir] makes a directory in a directory. *)
Lemma mkdir_head t name head tail t' :
  makedirs_parts name = (head, tail) -> tail <> "" -> head <> "" ->
  mkdir t name = inr t' -> isdir t head = true.
Proof.
  intros Hp Ht Hh. rewrite isdir_walk. unfold mkdir, resolve.
  destruct (check_path name) eqn:Hc; [done|].
  rewrite (check_path_head _ _ _ Hp Ht Hh Hc).
  rewrite (makedirs_parts_names _ _ _ Hp Ht), removelast_last.
  by destruct (walk t [] (names head)).
Qed.

(** A name that ends with a dot is never made. *)
Lemma mkdir_dot t name head t' :
  makedirs_parts name = (head, ".") -> mkdir t name = inr t' -> False.
Proof.
  intros Hp. unfold mkdir, resolve.
  destruct (check_path name); [done|].
  rewrite (makedirs_parts_names _ _ _ Hp) by done.
  rewrite removelast_last, last_snoc.
  by destruct (walk t [] (names head)).
Qed.

(** *** The last lines of [makedirs] *)

Lemma mkdir_exist_ok_err t name e t' :
  mkdir_exist_ok t name = (Some e, t') ->
  t' = t /\ isdir t name = false /\ exists err, mkdir t name = inl err.
Proof.
  unfold mkdir_exist_ok. destruct (mkdir t name) as [[err|]|t1] eqn:Hm.
  - destruct (isdir t name); [done|]. intros [= _ <-]. by eauto.
  - intros [= _ <-]. split; [done|]. split; [by apply mkdir_NullByte | by eauto].
  - done.
Qed.

Lemma mkdir_exist_ok_ok t name t' :
  mkdir_exist_ok t name = (None, t') ->
  isdir t' name = true /\ (t' = t \/ mkdir t name = inr t').
Proof.
  unfold mkdir_exist_ok. destruct (mkdir t name) as [[err|]|t1] eqn:Hm.
  - destruct (isdir t name) eqn:Hd; [|done]. intros [= <-]. by split; [|left].
  - done.
  - intros [= <-]. split; [by eapply mkdir_isdir | by right].
Qed.

Lemma mkdir_exist_ok_fail t name e :
  mkdir t name = inl e -> snd (mkdir_exist_ok t name) = t.
Proof.
  unfold mkdir_exist_ok. intros ->. destruct e as [e|]; [|done].
  by destruct (isdir t name).
Qed.

Lemma mkdir_exist_ok_isdir t name :
  isdir t name = true -> mkdir_exist_ok t name = (None, t).
Proof.
  intros Hd. unfold mkdir_exist_ok.
  rewrite (exists_mkdir _ _ (isdir_exists _ _ Hd)). by rewrite Hd.
Qed.

(** *** [makedirs] *)

(** One unfolding of the recursion. *)
Lemma makedirs_fuel_S fuel t name :
  makedirs_fuel (S fuel) t name =
  let (head, tail) := makedirs_parts name in
  if negb (String.eqb head "") && negb (String.eqb tail "")
     && negb (exists_ t head) then
    match makedirs_fuel fuel t head with
    | (Some (e, filename), t1) =>
        if is_file_exists_error e then
          if String.eqb tail "." then (None, t1) else mkdir_exist_ok t1 name
        else (Some (e, filename), t1)
    | (None, t1) =>
        if String.eqb tail "." then (None, t1) else mkdir_exist_ok t1 name
    end
  else mkdir_exist_ok t name.
Proof. reflexivity. Qed.

(** The three conditions under which [makedirs] calls itself. *)
Lemma enters_inv head tail (b : bool) :
  negb (String.eqb head "") && negb (String.eqb tail "") && negb b = true ->
  head <> "" /\ tail <> "" /\ b = false.
Proof.
  intros [[Hh Ht]%andb_true_iff Hb]%andb_true_iff.
  apply negb_true_iff in Hh, Ht, Hb.
  by apply String.eqb_neq in Hh, Ht.
Qed.

(** When the directory is there already, [makedirs] returns and changes
    nothing. *)
Lemma makedirs_fuel_existing fuel t name :
  isdir t name = true -> makedirs_fuel (S fuel) t name = (None, t).
Proof.
  intros Hd. rewrite makedirs_fuel_S.
  destruct (makedirs_parts name) as [head tail] eqn:Hp.
  destruct (negb (String.eqb head "") && negb (String.eqb tail "")
            && negb (exists_ t head)) eqn:Hc.
  - apply enters_inv in Hc as (Hh & Ht & He).
    by rewrite (isdir_exists _ _ (isdir_head _ _ _ _ Hp Ht Hh Hd)) in He.
  - by apply mkdir_exist_ok_isdir.
Qed.

Lemma makedirs_existing t name :
  isdir t name = true -> makedirs t name = (None, t).
Proof. apply makedirs_fuel_existing. Qed.

(** The name [makedirs] has failed on is no directory. *)
Lemma makedirs_fuel_failed fuel : forall t name e t',
  makedirs_fuel fuel t name = (Some e, t') -> isdir t' name = false.
Proof.
  induction fuel as [|fuel IH]; intros t name e t'; [done|].
  rewrite makedirs_fuel_S.
  destruct (makedirs_parts name) as [head tail] eqn:Hp.
  destruct (negb (String.eqb head "") && negb (String.eqb tail "")
            && negb (exists_ t head)) eqn:Hc.
  - apply enters_inv in Hc as (Hh & Ht & He).
    destruct (makedirs_fuel fuel t head) as [[[e1 f1]|] t1] eqn:Hrec.
    + destruct (is_file_exists_error e1).
      * destruct (String.eqb tail "."); [done|].
        intros Hm. by apply mkdir_exist_ok_err in Hm as (-> & ? & _).
      * intros [= _ <-]. pose proof (IH _ _ _ _ Hrec) as Hd.
        destruct (isdir t1 name) eqn:Hn; [|done].
        by rewrite (isdir_head _ _ _ _ Hp Ht Hh Hn) in Hd.
    + destruct (String.eqb tail "."); [done|].
      intros Hm. by apply mkdir_exist_ok_err in Hm as (-> & ? & _).
  - intros Hm. by apply mkdir_exist_ok_err in Hm as (-> & ? & _).
Qed.

(** After a call of [makedirs] that has returned, the name is a directory,
    unless its tail is a dot. *)
Lemma makedirs_fuel_isdir fuel t name t' :
  makedirs_fuel (S fuel) t name = (None, t') ->
  snd (makedirs_parts name) <> "." ->
  isdir t' name = true.
Proof.
  rewrite makedirs_fuel_S.
  destruct (makedirs_parts name) as [head tail] eqn:Hp. cbn [snd].
  intros Hm Hdot. apply String.eqb_neq in Hdot. rewrite Hdot in Hm.
  destruct (negb (String.eqb head "") && negb (String.eqb tail "")
            && negb (exists_ t head)).
  - destruct (makedirs_fuel fuel t head) as [[[e1 f1]|] t1].
    + destruct (is_file_exists_error e1); [|done].
      by apply mkdir_exist_ok_ok in Hm as [? _].
    + by apply mkdir_exist_ok_ok in Hm as [? _].
  - by apply mkdir_exist_ok_ok in Hm as [? _].
Qed.

(** What [makedirs] adds: directories, at places where nothing was. *)
Lemma grows_refl t : grows t t.
Proof. split; [done|]. intros k v Hk. by left. Qed.

Lemma grows_trans t1 t2 t3 : grows t1 t2 -> grows t2 t3 -> grows t1 t3.
Proof.
  intros [Ha Hb] [Hc Hd]. split.
  - intros k v Hk. by apply Hc, Ha.
  - intros k v Hk. destruct (Hd k v Hk) as [H2|?]; [|by right]. by apply Hb.
Qed.

Lemma grows_insert t loc : t !! loc = None -> grows t (<[loc := NDir]> t).
Proof.
  intros Hl. split.
  - intros k v Hk. rewrite lookup_insert_ne; [done|]. intros <-. congruence.
  - intros k v Hk. destruct (decide (loc = k)) as [<-|Hne].
    + rewrite lookup_insert_eq in Hk. right. congruence.
    + rewrite lookup_insert_ne in Hk by done. by left.
Qed.

Lemma mkdir_exist_ok_grows t name r t' :
  mkdir_exist_ok t name = (r, t') -> grows t t'.
Proof.
  unfold mkdir_exist_ok. destruct (mkdir t name) as [[err|]|t1] eqn:Hm.
  - destruct (isdir t name); intros [= _ <-]; apply grows_refl.
  - intros [= _ <-]. apply grows_refl.
  - intros [= _ <-]. apply mkdir_adds in Hm as (loc & Hl & ->).
    by apply grows_insert.
Qed.

Lemma makedirs_fuel_grows fuel : forall t name r t',
  makedirs_fuel fuel t name = (r, t') -> grows t t'.
Proof.
  induction fuel as [|fuel IH]; intros t name r t'.
  - intros [= _ <-]. apply grows_refl.
  - rewrite makedirs_fuel_S.
    destruct (makedirs_parts name) as [head tail].
    destruct (negb (String.eqb head "") && negb (String.eqb tail "")
              && negb (exists_ t head)); [|apply mkdir_exist_ok_grows].
    destruct (makedirs_fuel fuel t head) as [[[e1 f1]|] t1] eqn:Hrec;
      apply IH in Hrec.
    + destruct (is_file_exists_error e1).
      * destruct (String.eqb tail ".").
        -- by intros [= _ <-].
        -- intros Hm. eapply grows_trans; [done|]. by eapply mkdir_exist_ok_grows.
      * by intros [= _ <-].
    + destruct (String.eqb tail ".").
      * by intros [= _ <-].
      * intros Hm. eapply grows_trans; [done|]. by eapply mkdir_exist_ok_grows.
Qed.

Lemma makedirs_grows t name r t' : makedirs t name = (r, t') -> grows t t'.
Proof. apply makedirs_fuel_grows. Qed.

(** The recursion is on a shorter name each time: more fuel than the name
    is long is all the fuel it takes. *)
Lemma makedirs_fuel_enough n : forall m t name,
  (String.length name < n)%nat -> (String.length name < m)%nat ->
  makedirs_fuel n t name = makedirs_fuel m t name.
Proof.
  induction n as [|n IH]; intros m t name Hn Hm; [lia|].
  destruct m as [|m]; [lia|]. rewrite !makedirs_fuel_S.
  destruct (makedirs_parts name) as [head tail] eqn:Hp.
  destruct (negb (String.eqb head "") && negb (String.eqb tail "")
            && negb (exists_ t head)) eqn:Hc; [|done].
  apply enters_inv in Hc as (Hh & Ht & He).
  pose proof (makedirs_parts_length _ _ _ Hp Ht).
  rewrite (IH m) by lia. done.
Qed.

(** A second call of [makedirs] leaves the tree of the first call as it
    is. *)
Lemma makedirs_fuel_stable n : forall t name r t',
  (String.length name < n)%nat ->
  makedirs_fuel n t name = (r, t') ->
  forall m, snd (makedirs_fuel m t' name) = t'.
Proof.
  induction n as [|n IH]; intros t name r t' Hn; [lia|].
  rewrite makedirs_fuel_S.
  destruct (makedirs_parts name) as [head tail] eqn:Hp.
  (* a tree in which the name is a directory *)
  assert (forall s, isdir s name = true ->
            forall m, snd (makedirs_fuel m s name) = s) as Hdir.
  { intros s Hs [|m]; [done|]. by rewrite makedirs_fuel_existing. }
  (* a tree in which [mkdir] fails *)
  assert (forall s,
            (forall s', mkdir s name <> inr s') ->
            (negb (String.eqb head "") && negb (String.eqb tail "")
             && negb (exists_ s head) = true ->
             forall m, snd (makedirs_fuel m s head) = s) ->
            forall m, snd (makedirs_fuel m s name) = s) as Hfail.
  { intros s Hmk Hrec [|m]; [done|]. rewrite makedirs_fuel_S, Hp.
    assert (snd (mkdir_exist_ok s name) = s) as Hok.
    { destruct (mkdir s name) as [e|s'] eqn:Hm; [by eapply mkdir_exist_ok_fail|].
      by destruct (Hmk s'). }
    destruct (negb (String.eqb head "") && negb (String.eqb tail "")
              && negb (exists_ s head)); [|done].
    pose proof (Hrec eq_refl m) as Hs.
    destruct (makedirs_fuel m s head) as [[[e1 f1]|] s1]; cbn [snd] in Hs; subst s1.
    - destruct (is_file_exists_error e1); [|done].
      by destruct (String.eqb tail ".").
    - by destruct (String.eqb tail "."). }
  (* the last lines of the first call *)
  assert (forall s,
            mkdir_exist_ok s name = (r, t') ->
            (negb (String.eqb head "") && negb (String.eqb tail "")
             && negb (exists_ s head) = true ->
             forall m, snd (makedirs_fuel m s head) = s) ->
            forall m, snd (makedirs_fuel m t' name) = t') as Hlast.
  { intros s Hm Hrec. destruct r as [e|].
    - apply mkdir_exist_ok_err in Hm as (-> & _ & err & Herr).
      apply Hfail; [|done]. intros s'. by rewrite Herr.
    - apply mkdir_exist_ok_ok in Hm as [Hd _]. by apply Hdir. }
  destruct (negb (String.eqb head "") && negb (String.eqb tail "")
            && negb (exists_ t head)) eqn:Hc.
  2:{ intros Hm. apply (Hlast t Hm). by rewrite Hc. }
  apply enters_inv in Hc as (Hh & Ht & He).
  pose proof (makedirs_parts_length _ _ _ Hp Ht) as Hlen.
  destruct (makedirs_fuel n t head) as [r1 t1] eqn:Hrec.
  assert (forall m, snd (makedirs_fuel m t1 head) = t1) as Hst.
  { eapply IH; [|exact Hrec]. lia. }
  assert (String.eqb tail "." = true -> forall m, snd (makedirs_fuel m t1 name) = t1) as Hdot.
  { intros ->%String.eqb_eq. apply Hfail; [|done].
    intros s' Hs'. by eapply mkdir_dot. }
  destruct r1 as [[e1 f1]|].
  - destruct (is_file_exists_error e1).
    + destruct (String.eqb tail ".").
      * intros [= _ <-]. by apply Hdot.
      * intros Hm. by apply (Hlast t1 Hm).
    + intros [= _ <-]. apply Hfail; [|done].
      intros s' Hs'. pose proof (makedirs_fuel_failed _ _ _ _ _ Hrec) as Hd.
      by rewrite (mkdir_head _ _ _ _ _ Hp Ht Hh Hs') in Hd.
  - destruct (String.eqb tail ".").
    + intros [= _ <-]. by apply Hdot.
    + intros Hm. by apply (Hlast t1 Hm).
Qed.

Lemma makedirs_stable t name r t' :
  makedirs t name = (r, t') -> snd (makedirs t' name) = t'.
Proof.
  intros Hm. eapply makedirs_fuel_stable; [|exact Hm]. lia.
Qed.

(** After a call that has returned, a second call returns as well, unless
    the tail of the name is a dot. *)
Lemma makedirs_again t name t' :
  makedirs t name = (None, t') ->
  snd (makedirs_parts name) <> "." ->
  makedirs t' name = (None, t').
Proof.
  intros Hm Hdot. apply makedirs_existing. by eapply makedirs_fuel_isdir.
Qed.

(** *** Reading and writing *)

Lemma locate_insert t path loc loc' v :
  locate t path = inr loc ->
  t !! loc' <> Some NDir ->
  locate (<[loc' := v]> t) path = inr loc.
Proof.
  unfold locate. destruct (resolve t path) as [e|tg] eqn:Hr; [done|].
  intros Hl Hloc'. by rewrite (resolve_insert _ _ _ _ v Hr Hloc').
Qed.

(** What was written is what is read back. *)
Lemma read_after_write t path data t' :
  write_text t path data = inr t' -> read_text t' path = inr data.
Proof.
  unfold write_text, read_text, locate, stat.
  destruct (resolve t path) as [e|[l|d c tr]] eqn:Hr; [done|done|].
  destruct tr; [done|]. destruct (too_long c) eqn:Hc; [done|].
  intros Hw.
  assert (t !! (d ++ [c])%list <> Some NDir
          /\ t' = <[(d ++ [c])%list := NFile data]> t) as [Hnd ->].
  { destruct (t !! (d ++ [c])%list) as [[old|]|]; split; congruence. }
  rewrite (resolve_insert _ _ _ _ (NFile data) Hr Hnd).
  by rewrite Hc, lookup_insert_eq.
Qed.

(** A write touches one location only. *)
Lemma write_text_other t path data t' :
  write_text t path data = inr t' ->
  exists loc, locate t path = inr loc /\ t' = <[loc := NFile data]> t.
Proof.
  unfold write_text.
  destruct (locate t path) as [e|loc]; [done|].
  intros Hw. exists loc. split; [done|].
  destruct (t !! loc) as [[old|]|]; congruence.
Qed.

End FsFacts.

(** ** Theorems *)

Create HintDb keeps.
Create HintDb nosec.

Section Properties.
Context {env : Env}.
Import PyStr Posixpath PathFacts.

(** C1. For every path, the guard answers true exactly when the normalized
    path has [/data] as a literal prefix; the empty path is rejected; and the
    guard always returns a boolean, it never raises. *)
Theorem B12_spec (filepath : string) (w : world) :
  (exists b, fst (B12 filepath w) = inr b /\
             (b = true <-> exists rest, normpath filepath = "/data" +:+ rest)) /\
  fst (B12 "" w) = inr false.
Proof.
  split.
  - exists (accepts filepath). rewrite B12_run. split; [reflexivity|].
    unfold accepts, startswith. apply prefix_app.
  - by rewrite B12_run.
Qed.

Lemma B12_rejected filepath w :
  fst (B12 filepath w) = inr false -> accepts filepath = false.
Proof. rewrite B12_run. simpl. congruence. Qed.

Ltac guard_step :=
  rewrite bind_run, B12_run;
  match goal with
  | H : accepts ?p = _ |- context [accepts ?p] => rewrite H
  end;
  cbv beta iota; rewrite bind_run; cbn [unless raise mret M_ret]; cbv beta iota.

Ltac refused :=
  unfold security_fault_before_io, try_except;
  repeat guard_step; rewrite ?bind_run; cbn;
  split; [eexists; reflexivity | by repeat split].

Lemma B3_refused url dest w :
  accepts dest = false -> security_fault_before_io w (B3 url dest w).
Proof. intros H. unfold B3. refused. Qed.

Lemma B6_refused url dest w :
  accepts dest = false -> security_fault_before_io w (B6 url dest w).
Proof. intros H. unfold B6. refused. Qed.

Lemma B5_refused db_path query dest w :
  accepts dest = false -> security_fault_before_io w (B5 db_path query dest w).
Proof.
  intros H. unfold B5. destruct (accepts db_path) eqn:Hdb; refused.
Qed.

Lemma B7_refused image_path dest resize w :
  accepts dest = false -> security_fault_before_io w (B7 image_path dest resize w).
Proof.
  intros H. unfold B7. destruct (accepts image_path) eqn:Hsrc; refused.
Qed.

Lemma B9_refused md_path dest w :
  accepts dest = false -> security_fault_before_io w (B9 md_path dest w).
Proof.
  intros H. unfold B9. destruct (accepts md_path) eqn:Hsrc; refused.
Qed.

(** C2. When the destination fails the guard, each writing operation raises
    a Security Fault before any network, database or file system call, and
    the file system is as it was. *)
Theorem write_outside_sandbox_refused (dest : string) (w : world) :
  fst (B12 dest w) = inr false ->
  (forall url, security_fault_before_io w (B3 url dest w)) /\
  (forall db_path query, security_fault_before_io w (B5 db_path query dest w)) /\
  (forall url, security_fault_before_io w (B6 url dest w)) /\
  (forall image_path resize, security_fault_before_io w (B7 image_path dest resize w)) /\
  (forall md_path, security_fault_before_io w (B9 md_path dest w)).
Proof.
  intros Hrej. apply B12_rejected in Hrej.
  split; [|split; [|split; [|split]]]; intros.
  - by apply B3_refused.
  - by apply B5_refused.
  - by apply B6_refused.
  - by apply B7_refused.
  - by apply B9_refused.
Qed.

(** *** The directory ensurer *)

Lemma create_directory_accepted filepath w :
  accepts filepath = true ->
  create_directory_if_not_exists filepath w =
  if negb (String.eqb (dirname filepath) "") then os_makedirs (dirname filepath) w
  else (inr tt, w).
Proof.
  intros Ha. unfold create_directory_if_not_exists.
  rewrite bind_run, (B12_accepted _ _ Ha). cbv beta iota.
  rewrite bind_run. cbn [unless mret M_ret]. cbv beta iota zeta.
  by destruct (negb (String.eqb (dirname filepath) "")).
Qed.

Lemma create_directory_rejected filepath w :
  accepts filepath = false ->
  create_directory_if_not_exists filepath w =
  (inl (SecurityError ("Cannot create directory outside /data: " +:+ filepath)),
   add_log (guard_log filepath) w).
Proof.
  intros Ha. unfold create_directory_if_not_exists.
  rewrite bind_run, B12_run, Ha. cbv beta iota. by rewrite bind_run.
Qed.

Lemma os_makedirs_run name w :
  os_makedirs name w =
  (match fst (Fs.makedirs (fs w) name) with
   | None => inr tt
   | Some (err, filename) => inl (fs_exn err filename)
   end,
   World (snd (Fs.makedirs (fs w) name)) (open_conns w)
         (trace w ++ [FsMakedirs name]) (log w)).
Proof.
  unfold os_makedirs, emit, set_fs. cbn [snd fs open_conns trace log].
  by destruct (Fs.makedirs (fs w) name) as [[[err filename]|] t].
Qed.

(** C10. The directory ensurer is idempotent: on a path the guard accepts, a
    second call in succession leaves the file system as the first call left
    it; where the directory of the path exists beforehand the call returns
    and changes nothing; and where the first call has returned, the second
    returns as well, unless the directory of the path is written with a
    final dot.  On a path the guard rejects it raises a Security Fault, and
    no call has reached the file system. *)
Theorem create_directory_idempotent (filepath : string) (w : world) :
  let once := create_directory_if_not_exists filepath w in
  let twice := create_directory_if_not_exists filepath (snd once) in
  exists b, fst (B12 filepath w) = inr b /\
    if b then
      fs (snd twice) = fs (snd once) /\
      (Fs.isdir (fs w) (dirname filepath) = true ->
       fst once = inr tt /\ fs (snd once) = fs w) /\
      (fst once = inr tt ->
       snd (Fs.makedirs_parts (dirname filepath)) <> "." ->
       fst twice = inr tt)
    else
      (exists msg, fst once = inl (SecurityError msg)) /\ same_io w (snd once).
Proof.
  cbv zeta. exists (accepts filepath). rewrite B12_run. split; [done|].
  destruct (accepts filepath) eqn:Ha.
  - rewrite !(create_directory_accepted _ _ Ha).
    destruct (String.eqb (dirname filepath) "") eqn:Hd; cbn [negb].
    + split; [done|]. by split.
    + rewrite (os_makedirs_run _ w).
      destruct (Fs.makedirs (fs w) (dirname filepath)) as [r t'] eqn:Hm.
      cbn [fst snd]. rewrite os_makedirs_run. cbn [fst snd fs].
      split; [by eapply FsFacts.makedirs_stable|]. split.
      * intros Hdir. rewrite (FsFacts.makedirs_existing _ _ Hdir) in Hm.
        by inversion Hm.
      * intros Hr Hdot. destruct r as [[err filename]|].
        { by destruct err. }
        by rewrite (FsFacts.makedirs_again _ _ _ Hm Hdot).
  - rewrite (create_directory_rejected _ _ Ha). cbn [fst snd].
    split; [by eexists | apply same_io_add_log].
Qed.

(** *** Fetch-and-save and scrape-and-save

    [B3] and [B6] are one program text up to the wording of their messages;
    [fetch_and_save] is that text with the wording taken as a parameter. *)

Lemma B3_fetch_and_save url p : B3 url p = fetch_and_save B3_wording url p.
Proof. reflexivity. Qed.

Lemma B6_fetch_and_save url p : B6 url p = fetch_and_save B6_wording url p.
Proof. reflexivity. Qed.

Lemma fetch_and_save_rejected wd url p w :
  accepts p = false ->
  fetch_and_save wd url p w =
  failed wd url (SecurityError (invalid_path wd p)) (add_log (guard_log p) w).
Proof.
  intros Ha. unfold fetch_and_save, try_except. guard_step. reflexivity.
Qed.

(** The run of the text on an accepted path, step by step. *)
Lemma fetch_and_save_accepted wd url p w :
  accepts p = true ->
  fetch_and_save wd url p w =
  match net_get url 30 with
  | inl (kind, msg) => failed wd url (RequestException kind msg) (sent url w)
  | inr r =>
      match raise_for_status r (sent url w) with
      | (inl e, w1) => failed wd url e w1
      | (inr _, w1) =>
          match create_directory_if_not_exists p w1 with
          | (inl e, w2) => failed wd url e w2
          | (inr _, w2) =>
              match open_write p (text r) w2 with
              | (inl e, w3) => failed wd url e w3
              | (inr _, w3) => (inr tt, add_log [(INFO, succeeded wd url p)] w3)
              end
          end
      end
  end.
Proof.
  intros Ha. unfold fetch_and_save, try_except.
  rewrite bind_run, (B12_accepted _ _ Ha). cbv beta iota.
  rewrite bind_run. cbn [unless mret M_ret]. cbv beta iota.
  rewrite bind_run. unfold requests_get. cbn [emit snd]. fold (sent url w).
  destruct (net_get url 30) as [[kind msg]|r]; [reflexivity|].
  cbv beta iota. rewrite bind_run.
  destruct (raise_for_status r (sent url w)) as [[e|[]] w1].
  { unfold failed, handler_text. by destruct (is_request_exception e). }
  rewrite bind_run.
  destruct (create_directory_if_not_exists p w1) as [[e|[]] w2].
  { unfold failed, handler_text. by destruct (is_request_exception e). }
  rewrite bind_run.
  destruct (open_write p (text r) w2) as [[e|[]] w3].
  { unfold failed, handler_text. by destruct (is_request_exception e). }
  reflexivity.
Qed.

Lemma raise_for_status_world r w : snd (raise_for_status r w) = w.
Proof.
  unfold raise_for_status. by repeat destruct (_ && _).
Qed.

Lemma raise_for_status_error r w :
  400 <= status_code r < 600 ->
  exists msg, raise_for_status r w = (inl (RequestException HTTPError msg), w).
Proof.
  intros Hs. unfold raise_for_status.
  destruct ((400 <=? status_code r) && (status_code r <? 500)) eqn:H4; [by eexists|].
  destruct ((500 <=? status_code r) && (status_code r <? 600)) eqn:H5; [by eexists|].
  exfalso. apply andb_false_iff in H4, H5. lia.
Qed.

Lemma raise_for_status_pass r w :
  ~ (400 <= status_code r < 600) -> raise_for_status r w = (inr tt, w).
Proof.
  intros Hs. unfold raise_for_status.
  destruct ((400 <=? status_code r) && (status_code r <? 500)) eqn:H4.
  { exfalso. apply andb_true_iff in H4. lia. }
  destruct ((500 <=? status_code r) && (status_code r <? 600)) eqn:H5.
  { exfalso. apply andb_true_iff in H5. lia. }
  reflexivity.
Qed.

Lemma B12_accepts filepath w :
  fst (B12 filepath w) = inr true -> accepts filepath = true.
Proof. rewrite B12_run. simpl. congruence. Qed.

(** C4, as amended. With a destination the guard accepts, when the GET
    answers with a client or server error status (400 to 599), [B3] raises
    the Operation Fault of the status check; the file system is as it was,
    and the GET is the only call that was made. *)
Theorem B3_error_status_aborts (url save_path : string) (w : world) (r : response) :
  fst (B12 save_path w) = inr true ->
  net_get url 30 = inr r ->
  400 <= status_code r < 600 ->
  (exists msg, fst (B3 url save_path w) = inl (RequestException HTTPError msg)) /\
  fs (snd (B3 url save_path w)) = fs w /\
  trace (snd (B3 url save_path w)) = (trace w ++ [NetGet url 30])%list.
Proof.
  intros Ha Hget Hs. apply B12_accepts in Ha.
  rewrite B3_fetch_and_save, (fetch_and_save_accepted _ _ _ _ Ha), Hget.
  destruct (raise_for_status_error r (sent url w) Hs) as [msg ->].
  split; [by exists msg | by split].
Qed.

(** C5, as amended. With a destination the guard accepts, when the GET
    answers 200 with a body, and the directory of the destination can be
    created and the destination opened for writing, [B3] returns normally
    and the destination then holds the body exactly, whatever it held
    before. *)
Theorem B3_ok_body_written (url save_path : string) (w : world) (r : response)
  (t1 t2 : gmap (list string) node) :
  fst (B12 save_path w) = inr true ->
  net_get url 30 = inr r ->
  status_code r = 200 ->
  Fs.makedirs (fs w) (dirname save_path) = (None, t1) ->
  Fs.write_text t1 save_path (text r) = inr t2 ->
  fst (B3 url save_path w) = inr tt /\
  fs (snd (B3 url save_path w)) = t2 /\
  Fs.read_text (fs (snd (B3 url save_path w))) save_path = inr (text r).
Proof.
  intros Ha Hget Hs Hmk Hwr. apply B12_accepts in Ha.
  rewrite B3_fetch_and_save, (fetch_and_save_accepted _ _ _ _ Ha), Hget.
  rewrite raise_for_status_pass by lia.
  rewrite (create_directory_accepted _ _ Ha).
  rewrite (accepts_dirname _ Ha).
  cbn [negb]. rewrite os_makedirs_run. cbn [sent fs]. rewrite Hmk. cbn [fst snd].
  unfold open_write. cbn [emit snd fs]. rewrite Hwr. cbn [fst snd fs set_fs].
  split; [done|]. split; [done|]. by eapply FsFacts.read_after_write.
Qed.

Ltac wording_case :=
  unfold failed, add_log, same_io; cbn [fst snd fs trace open_conns log];
  rewrite ?map_app; cbn [List.map fst]; repeat split; reflexivity.

(** The two operations agree in everything but the text of their messages. *)
Lemma fetch_and_save_wording wd wd' url p w :
  let o := fetch_and_save wd url p w in
  let o' := fetch_and_save wd' url p w in
  same_io (snd o) (snd o') /\
  List.map fst (log (snd o')) = List.map fst (log (snd o)) /\
  if accepts p then fst o' = fst o
  else fst o = inl (SecurityError (invalid_path wd p)) /\
       fst o' = inl (SecurityError (invalid_path wd' p)).
Proof.
  cbv zeta. destruct (accepts p) eqn:Ha.
  - rewrite !(fetch_and_save_accepted _ _ _ _ Ha).
    destruct (net_get url 30) as [[kind msg]|r]; [wording_case|].
    destruct (raise_for_status r (sent url w)) as [[e|[]] w1]; [wording_case|].
    destruct (create_directory_if_not_exists p w1) as [[e|[]] w2]; [wording_case|].
    destruct (open_write p (text r) w2) as [[e|[]] w3]; wording_case.
  - rewrite !(fetch_and_save_rejected _ _ _ _ Ha). wording_case.
Qed.

(** C6, as amended. [B6] behaves as [B3] on every URL and path: the same
    guard check, the same GET with the 30 unit timeout and status check, the
    same directory creation and write of the raw body, hence the same file
    system, the same calls and the same outcome, and log lines at the same
    levels.  They differ in wording only: the text of the log lines, and
    the message of the Security Fault on a rejected path. *)
Theorem B6_behaves_as_B3 (url path : string) (w : world) :
  let o3 := B3 url path w in
  let o6 := B6 url path w in
  fs (snd o6) = fs (snd o3) /\
  trace (snd o6) = trace (snd o3) /\
  open_conns (snd o6) = open_conns (snd o3) /\
  List.map fst (log (snd o6)) = List.map fst (log (snd o3)) /\
  exists b, fst (B12 path w) = inr b /\
    if b then fst o6 = fst o3
    else fst o3 = inl (SecurityError ("Invalid save path: " +:+ path)) /\
         fst o6 = inl (SecurityError ("Invalid output path: " +:+ path)).
Proof.
  cbv zeta. rewrite B3_fetch_and_save, B6_fetch_and_save.
  destruct (fetch_and_save_wording B3_wording B6_wording url path w)
    as ((Hfs & Htr & Hco) & Hlog & Hres).
  repeat (split; [done|]).
  exists (accepts path). rewrite B12_run. split; [done|].
  by destruct (accepts path).
Qed.

(** *** Query-and-save *)

Lemma keeps_ret {A} (a : A) : keeps_conns (mret a).
Proof. intros w. split; [done|]. exists []. by rewrite app_nil_r. Qed.

Lemma keeps_raise {A} (e : exn) : keeps_conns (raise e : M A).
Proof. intros w. split; [done|]. exists []. by rewrite app_nil_r. Qed.

Lemma keeps_logger lvl msg : keeps_conns (logger lvl msg).
Proof. intros w. split; [done|]. exists []. by rewrite app_nil_r. Qed.

Lemma keeps_bind {A B} (m : M A) (f : A -> M B) :
  keeps_conns m -> (forall a, keeps_conns (f a)) -> keeps_conns (m ≫= f).
Proof.
  intros Hm Hf w. rewrite bind_run.
  destruct (Hm w) as [Hc [evs Ht]].
  destruct (m w) as [[e|a] w1]; simpl in *.
  - split; [done | by exists evs].
  - destruct (Hf a w1) as [Hc' [evs' Ht']].
    split; [congruence|]. exists (evs ++ evs')%list.
    by rewrite Ht', Ht, app_assoc.
Qed.

Lemma keeps_unless ok e : keeps_conns (unless ok e).
Proof. destruct ok; [apply keeps_ret | apply keeps_raise]. Qed.

Lemma keeps_B12 filepath : keeps_conns (B12 filepath).
Proof.
  intros w. rewrite B12_run. split; [done|]. exists []. simpl. by rewrite app_nil_r.
Qed.

Lemma keeps_os_makedirs name : keeps_conns (os_makedirs name).
Proof. intros w. rewrite os_makedirs_run. split; [done | by eexists]. Qed.

Lemma keeps_open_write path data : keeps_conns (open_write path data).
Proof.
  intros w. unfold open_write. cbn [emit snd fs].
  destruct (Fs.write_text (fs w) path data); (split; [done | by eexists]).
Qed.

Lemma keeps_execute_fetchall conn query : keeps_conns (execute_fetchall conn query).
Proof.
  intros w. unfold execute_fetchall. cbn [emit snd fs].
  destruct (db_query _ _ _ _) as [[msg|res] t]; (split; [done | by eexists]).
Qed.

Lemma keeps_create_directory filepath :
  keeps_conns (create_directory_if_not_exists filepath).
Proof.
  unfold create_directory_if_not_exists.
  apply keeps_bind; [apply keeps_B12|]. intros ok.
  apply keeps_bind; [apply keeps_unless|]. intros _. cbv zeta.
  destruct (negb _); [apply keeps_os_makedirs | apply keeps_ret].
Qed.

#[local] Hint Resolve keeps_ret keeps_raise keeps_logger keeps_unless keeps_B12
  keeps_os_makedirs keeps_open_write keeps_execute_fetchall
  keeps_create_directory : keeps.

Lemma keeps_B5_body conn query out : keeps_conns (B5_body conn query out).
Proof.
  unfold B5_body. repeat (apply keeps_bind; [auto with keeps | intros ?]).
  auto with keeps.
Qed.

Lemma conn_eqb_refl c : conn_eqb c c = true.
Proof. destruct c as [[] p]; unfold conn_eqb; simpl; apply String.eqb_refl. Qed.

(** The body under [finally: conn.close()]: the outcome of the body, in
    the world the close leaves. *)
Lemma try_finally_close {A} (m : M A) conn w :
  try_finally m (close conn) w = (fst (m w), snd (close conn (snd (m w)))).
Proof. unfold try_finally. by destruct (m w) as [r w1]. Qed.

(** The run of [B5] when the guard accepts both paths. *)
Lemma B5_accepted db_path query out w :
  accepts db_path = true -> accepts out = true ->
  B5 db_path query out w =
  match connect (engine_of db_path) db_path w with
  | (inl e, w1) => B5_failed e w1
  | (inr conn, w1) =>
      let w2 := snd (close conn (snd (B5_body conn query out w1))) in
      match fst (B5_body conn query out w1) with
      | inl e => B5_failed e w2
      | inr res => (inr res, w2)
      end
  end.
Proof.
  intros Hdb Hout. unfold B5, try_except.
  rewrite bind_run, (B12_accepted _ _ Hdb). cbv beta iota.
  rewrite bind_run. cbn [unless mret M_ret]. cbv beta iota.
  rewrite bind_run, (B12_accepted _ _ Hout). cbv beta iota.
  rewrite bind_run. cbn [unless mret M_ret]. cbv beta iota.
  rewrite bind_run.
  destruct (connect (engine_of db_path) db_path w) as [[e|conn] w1]; [reflexivity|].
  fold (B5_body conn query out). rewrite try_finally_close. cbv zeta.
  by destruct (fst (B5_body conn query out w1)).
Qed.

Lemma connect_run eng db_path w :
  connect eng db_path w =
  match db_connect eng db_path (fs w) with
  | (inr _, t) =>
      (inr (eng, db_path),
       World t ((eng, db_path) :: open_conns w) (trace w ++ [DbConnect eng db_path]) (log w))
  | (inl msg, t) =>
      (inl (LibraryError msg),
       World t (open_conns w) (trace w ++ [DbConnect eng db_path]) (log w))
  end.
Proof.
  unfold connect. cbn [emit snd fs].
  by destruct (db_connect eng db_path (fs w)) as [[msg|[]] t].
Qed.

Lemma close_run conn w :
  close conn w =
  (inr tt,
   World (db_close (fst conn) (snd conn) (fs w)) (remove_conn conn (open_conns w))
         (trace w ++ [DbClose (fst conn) (snd conn)]) (log w)).
Proof. reflexivity. Qed.

Lemma B5_body_run conn query out w :
  B5_body conn query out w =
  match execute_fetchall conn query w with
  | (inl e, w1) => (inl e, w1)
  | (inr result, w1) =>
      match create_directory_if_not_exists out w1 with
      | (inl e, w2) => (inl e, w2)
      | (inr _, w2) =>
          match open_write out (str_rows result) w2 with
          | (inl e, w3) => (inl e, w3)
          | (inr _, w3) =>
              (inr result,
               add_log [(INFO, "Successfully executed query and saved results to " +:+ out)] w3)
          end
      end
  end.
Proof.
  unfold B5_body. rewrite bind_run.
  destruct (execute_fetchall conn query w) as [[e|result] w1]; [done|].
  rewrite bind_run.
  destruct (create_directory_if_not_exists out w1) as [[e|[]] w2]; [done|].
  rewrite bind_run.
  destruct (open_write out (str_rows result) w2) as [[e|[]] w3]; [done|].
  reflexivity.
Qed.

(** C7. In [B5] the connection that was opened is closed again before the
    operation returns or raises, whatever the query, the directory creation
    and the write do: no connection stays open, and when the connection was
    opened the close is the last call of the operation.  When [B5] returns,
    the rows it returns are the rows of the query, and their rendering was
    written to the output file. *)
Theorem B5_closes_connection (db_path query output_filename : string) (w : world) :
  let res := B5 db_path query output_filename w in
  let eng := engine_of db_path in
  open_conns (snd res) = open_conns w /\
  (forall t,
     fst (B12 db_path w) = inr true ->
     fst (B12 output_filename w) = inr true ->
     db_connect eng db_path (fs w) = (inr tt, t) ->
     exists mid, trace (snd res) =
                 (trace w ++ DbConnect eng db_path :: mid ++ [DbClose eng db_path])%list) /\
  (forall result,
     fst res = inr result ->
     exists tc tq td tw,
       db_connect eng db_path (fs w) = (inr tt, tc) /\
       db_query eng db_path query tc = (inr result, tq) /\
       Fs.makedirs tq (dirname output_filename) = (None, td) /\
       Fs.write_text td output_filename (str_rows result) = inr tw /\
       Fs.read_text tw output_filename = inr (str_rows result) /\
       fs (snd res) = db_close eng db_path tw).
Proof.
  cbv zeta.
  destruct (accepts output_filename) eqn:Hout.
  2:{ destruct (B5_refused db_path query _ w Hout) as [[msg Hmsg] (Hfs & Htr & Hco)].
      split; [done|]. split.
      - intros t _ Hb. apply B12_accepts in Hb. congruence.
      - intros result Hres. congruence. }
  destruct (accepts db_path) eqn:Hdb.
  2:{ assert (security_fault_before_io w (B5 db_path query output_filename w))
        as [[msg Hmsg] (Hfs & Htr & Hco)].
      { unfold B5. refused. }
      split; [done|]. split.
      - intros t Hb. apply B12_accepts in Hb. congruence.
      - intros result Hres. congruence. }
  rewrite (B5_accepted _ _ _ _ Hdb Hout), connect_run.
  destruct (db_connect (engine_of db_path) db_path (fs w)) as [[msg|[]] tc] eqn:Hconn.
  { split; [done|]. split; [intros; congruence | intros; simpl in *; congruence]. }
  set (conn := (engine_of db_path, db_path)).
  set (w1 := World tc _ _ _).
  destruct (keeps_B5_body conn query output_filename w1) as [Hco [mid Htr]].
  pose proof (B5_body_run conn query output_filename w1) as Hrun.
  destruct (B5_body conn query output_filename w1) as [r wb].
  cbn [fst snd] in *. rewrite close_run.
  assert (remove_conn conn (open_conns wb) = open_conns w) as Hrem.
  { rewrite Hco. cbn [w1 open_conns remove_conn]. by rewrite conn_eqb_refl. }
  split; [by destruct r; cbn; rewrite Hrem|].
  split.
  { intros t _ _ Ht. exists mid.
    destruct r; cbn; rewrite Htr; cbn [w1 trace conn fst snd];
      by rewrite <- !app_assoc. }
  intros result Hres. destruct r as [e|res]; [done|].
  cbn in Hres. injection Hres as ->.
  unfold execute_fetchall in Hrun. cbn [emit snd fs w1 conn fst] in Hrun.
  destruct (db_query (engine_of db_path) db_path query tc) as [[msg|res] tq] eqn:Hq;
    [done|].
  rewrite (create_directory_accepted _ _ Hout), (accepts_dirname _ Hout) in Hrun.
  cbn [negb] in Hrun. rewrite os_makedirs_run in Hrun. cbn [set_fs fs] in Hrun.
  destruct (Fs.makedirs tq (dirname output_filename)) as [[[err filename]|] td] eqn:Hmk;
    [done|].
  cbn [fst snd] in Hrun. unfold open_write in Hrun. cbn [emit snd fs] in Hrun.
  destruct (Fs.write_text td output_filename (str_rows res)) as [err|tw] eqn:Hwr; [done|].
  injection Hrun as -> ->.
  exists tc, tq, td, tw. repeat (split; [done|]).
  split; [by eapply FsFacts.read_after_write | done].
Qed.

(** *** The choice of the engine *)

Lemma before_dot_prefix k : plain k -> forall r,
  before is_dot (fst (before is_sep r)) = (k, true) <->
  String.prefix (k +:+ ".") r = true.
Proof.
  induction k as [|a k IH]; intros Hk r.
  - destruct r as [|c r]; [done|].
    change ("" +:+ ".") with ".". rewrite prefix_cons. cbn [before].
    destruct (is_sep c) eqn:Hs.
    { apply Ascii.eqb_eq in Hs. subst c. by destruct (Ascii.ascii_dec _ _). }
    destruct (before is_sep r) as [base fb]. cbn [fst before].
    destruct (is_dot c) eqn:Hd.
    + apply Ascii.eqb_eq in Hd. subst c.
      destruct (Ascii.ascii_dec _ _); [|done]. by destruct r.
    + apply Ascii.eqb_neq in Hd.
      destruct (before is_dot base) as [pre f].
      destruct (Ascii.ascii_dec "." c) as [<-|]; [done|]. split; [|done].
      intros H. by injection H.
  - destruct Hk as (Hs & Hd & Hk). destruct r as [|c r]; [done|].
    rewrite append_cons, prefix_cons. cbn [before].
    destruct (is_sep c) eqn:Hsc.
    { destruct (Ascii.ascii_dec a c) as [->|]; [congruence | done]. }
    specialize (IH Hk r).
    destruct (before is_sep r) as [base fb]. cbn [fst before] in *.
    destruct (is_dot c) eqn:Hdc.
    { destruct (Ascii.ascii_dec a c) as [->|]; [congruence | done]. }
    destruct (before is_dot base) as [pre f].
    destruct (Ascii.ascii_dec a c) as [->|Hne].
    + rewrite <- IH. split; intros H; injection H as -> ->; done.
    + split; [|done]. intros H. by injection H.
Qed.

Lemma rev_app_length s1 : forall s2,
  String.length (String.rev_app s1 s2) = (String.length s1 + String.length s2)%nat.
Proof.
  induction s1 as [|a s1 IH]; intros s2; simpl; [done|].
  rewrite IH. simpl. lia.
Qed.

Lemma rev_is_db rext : String.rev rext = "db" <-> rext = "bd".
Proof.
  split; [|by intros ->].
  intros H. assert (String.length rext = 2%nat) as Hlen.
  { pose proof (rev_app_length rext "") as Hl. unfold String.rev in H.
    rewrite H in Hl. simpl in Hl. lia. }
  destruct rext as [|a [|b [|c rest]]]; try done.
  unfold String.rev in H. simpl in H. by injection H as -> ->.
Qed.

Lemma extension_db db_path :
  extension db_path = ".db" <-> endswith db_path ".db" = true.
Proof.
  unfold endswith. change (String.rev ".db") with ("bd" +:+ ".").
  rewrite <- before_dot_prefix by done.
  unfold extension.
  destruct (before is_dot (fst (before is_sep (String.rev db_path)))) as [rext [|]].
  - split.
    + intros H. injection H as H. apply rev_is_db in H. by subst.
    + intros H. injection H as ->. reflexivity.
  - split; [done | intros H; by injection H].
Qed.

(** C8. The engine [B5] connects with is a function of the extension of the
    database path alone: the extension [.db] selects SQLite, every other
    path selects DuckDB; and it is with that engine that [B5] opens the
    connection, the first call it makes when the guard accepts both
    paths. *)
Theorem engine_by_extension (db_path query output_filename : string) (w : world) :
  engine_of db_path = (if String.eqb (extension db_path) ".db" then SQLite else DuckDB) /\
  exists b b', fst (B12 db_path w) = inr b /\ fst (B12 output_filename w) = inr b' /\
    if b && b'
    then exists rest, trace (snd (B5 db_path query output_filename w)) =
                      (trace w ++ DbConnect (engine_of db_path) db_path :: rest)%list
    else trace (snd (B5 db_path query output_filename w)) = trace w.
Proof.
  split.
  - unfold engine_of. cbv zeta.
    destruct (String.eqb (extension db_path) ".db") eqn:He.
    + apply String.eqb_eq, extension_db in He. by rewrite He.
    + destruct (endswith db_path ".db") eqn:Hend; [|done].
      apply extension_db in Hend. apply String.eqb_neq in He. done.
  - exists (accepts db_path), (accepts output_filename). rewrite !B12_run.
    split; [done|]. split; [done|].
    destruct (accepts db_path) eqn:Hdb; destruct (accepts output_filename) eqn:Hout;
      cbn [andb].
    + rewrite (B5_accepted _ _ _ _ Hdb Hout), connect_run.
      destruct (db_connect _ _ _) as [[msg|[]] tc]; [by eexists|].
      cbv zeta. rewrite close_run.
      destruct (keeps_B5_body (engine_of db_path, db_path) query output_filename
                  (World tc ((engine_of db_path, db_path) :: open_conns w)
                         (trace w ++ [DbConnect (engine_of db_path) db_path]) (log w)))
        as [_ [mid Htr]].
      exists (mid ++ [DbClose (engine_of db_path) db_path])%list.
      destruct (fst _); cbn; rewrite Htr; cbn; by rewrite <- !app_assoc.
    + by destruct (B5_refused db_path query _ w Hout) as [_ (_ & ? & _)].
    + assert (security_fault_before_io w (B5 db_path query output_filename w))
        as [_ (_ & ? & _)]; [unfold B5; refused | done].
    + by destruct (B5_refused db_path query _ w Hout) as [_ (_ & ? & _)].
Qed.

(** *** Operations that raise no Security Fault *)

Lemma nosec_ret {A} (a : A) : no_security (mret a).
Proof. by intros w. Qed.

Lemma nosec_raise {A} (e : exn) :
  is_security_error e = false -> no_security (raise e : M A).
Proof. by intros He w. Qed.

Lemma nosec_logger lvl msg : no_security (logger lvl msg).
Proof. by intros w. Qed.

Lemma nosec_bind {A B} (m : M A) (f : A -> M B) :
  no_security m -> (forall a, no_security (f a)) -> no_security (m ≫= f).
Proof.
  intros Hm Hf w. rewrite bind_run.
  specialize (Hm w). destruct (m w) as [[e|a] w1]; [exact Hm | apply Hf].
Qed.

Lemma nosec_try_except {A} (m : M A) (h : exn -> M A) :
  no_security m ->
  (forall e, is_security_error e = false -> no_security (h e)) ->
  no_security (try_except m h).
Proof.
  intros Hm Hh w. unfold try_except.
  specialize (Hm w). destruct (m w) as [[e|a] w1]; [by apply Hh | done].
Qed.

Lemma nosec_try_finally {A} (m : M A) (c : M unit) :
  no_security m -> no_security c -> no_security (try_finally m c).
Proof.
  intros Hm Hc w. unfold try_finally.
  specialize (Hm w). destruct (m w) as [r w1].
  specialize (Hc w1). by destruct (c w1) as [[e|[]] w2].
Qed.

Lemma nosec_reraise {A} (msg : string) (e : exn) :
  is_security_error e = false ->
  no_security (logger ERROR msg ≫= (fun _ => raise e) : M A).
Proof.
  intros He. apply nosec_bind; [apply nosec_logger | intros _; by apply nosec_raise].
Qed.

Lemma nosec_guard {A} filepath (f : bool -> M A) :
  accepts filepath = true -> no_security (f true) -> no_security (B12 filepath ≫= f).
Proof.
  intros Ha Hf w. rewrite bind_run, (B12_accepted _ _ Ha). apply Hf.
Qed.

Lemma nosec_requests_get url timeout : no_security (requests_get url timeout).
Proof.
  intros w. unfold requests_get. by destruct (net_get url timeout) as [[kind m]|r].
Qed.

Lemma nosec_raise_for_status r : no_security (raise_for_status r).
Proof.
  intros w. unfold raise_for_status. by repeat destruct (_ && _).
Qed.

Lemma nosec_os_makedirs name : no_security (os_makedirs name).
Proof.
  intros w. rewrite os_makedirs_run.
  by destruct (fst (Fs.makedirs _ _)) as [[[e|] filename]|].
Qed.

Lemma nosec_open_write path data : no_security (open_write path data).
Proof.
  intros w. unfold open_write. by destruct (Fs.write_text _ _ _) as [[e|]|t].
Qed.

Lemma nosec_open_read path : no_security (open_read path).
Proof.
  intros w. unfold open_read. by destruct (Fs.read_text _ _) as [[e|]|data].
Qed.

Lemma nosec_connect eng db_path : no_security (connect eng db_path).
Proof.
  intros w. rewrite connect_run. by destruct (db_connect _ _ _) as [[m|[]] t].
Qed.

Lemma nosec_execute_fetchall conn query : no_security (execute_fetchall conn query).
Proof.
  intros w. unfold execute_fetchall. by destruct (db_query _ _ _ _) as [[m|res] t].
Qed.

Lemma nosec_close conn : no_security (close conn).
Proof. by intros w. Qed.

Lemma nosec_create_directory filepath :
  accepts filepath = true -> no_security (create_directory_if_not_exists filepath).
Proof.
  intros Ha w. rewrite (create_directory_accepted _ _ Ha).
  destruct (negb _); [apply nosec_os_makedirs | done].
Qed.

Lemma nosec_image_open path : no_security (image_open path).
Proof.
  apply nosec_bind; [apply nosec_open_read|]. intros data.
  destruct (image_decode data); [by apply nosec_raise | apply nosec_ret].
Qed.

Lemma nosec_image_save img path : no_security (image_save img path).
Proof.
  unfold image_save.
  destruct (image_encode img path); [by apply nosec_raise | apply nosec_open_write].
Qed.

Lemma nosec_read_csv path : no_security (read_csv path).
Proof.
  apply nosec_bind; [apply nosec_open_read|]. intros data.
  destruct (csv_parse data); [by apply nosec_raise | apply nosec_ret].
Qed.

Lemma nosec_df_getitem df name : no_security (df_getitem df name).
Proof.
  unfold df_getitem.
  destruct (index_of name (columns df)); [apply nosec_ret | by apply nosec_raise].
Qed.

#[local] Hint Resolve nosec_ret nosec_logger nosec_requests_get nosec_raise_for_status
  nosec_os_makedirs nosec_open_write nosec_open_read nosec_connect
  nosec_execute_fetchall nosec_close nosec_create_directory nosec_image_open
  nosec_image_save nosec_read_csv nosec_df_getitem nosec_try_finally : nosec.

Ltac nosec :=
  repeat first
    [ apply nosec_guard; [assumption|]; cbn [unless]
    | apply nosec_bind; [solve [auto with nosec] | intros ?]
    | apply nosec_try_finally
    | solve [auto with nosec] ].

Lemma nosec_B3 url p : accepts p = true -> no_security (B3 url p).
Proof.
  intros Ha. apply nosec_try_except.
  - nosec.
  - intros e He. destruct (is_request_exception e); by apply nosec_reraise.
Qed.

Lemma nosec_B6 url p : accepts p = true -> no_security (B6 url p).
Proof.
  intros Ha. apply nosec_try_except.
  - nosec.
  - intros e He. destruct (is_request_exception e); by apply nosec_reraise.
Qed.

Lemma nosec_B5 db_path query out :
  accepts db_path = true -> accepts out = true -> no_security (B5 db_path query out).
Proof.
  intros Hdb Hout. apply nosec_try_except.
  - nosec.
  - intros e He. by apply nosec_reraise.
Qed.

Lemma nosec_B7 image_path out resize :
  accepts image_path = true -> accepts out = true ->
  no_security (B7 image_path out resize).
Proof.
  intros Hsrc Hout. apply nosec_try_except.
  - nosec. apply nosec_bind; [|intros ?; nosec].
    destruct resize as [dims|]; [|apply nosec_ret].
    destruct (image_resize _ dims); [by apply nosec_raise | apply nosec_ret].
  - intros e He. by apply nosec_reraise.
Qed.

Lemma nosec_B9 md_path out :
  accepts md_path = true -> accepts out = true -> no_security (B9 md_path out).
Proof.
  intros Hsrc Hout. apply nosec_try_except.
  - nosec.
  - intros e He. by apply nosec_reraise.
Qed.

Lemma nosec_B10 csv_path column value :
  accepts csv_path = true -> no_security (B10 csv_path column value).
Proof.
  intros Ha. apply nosec_try_except.
  - nosec.
  - intros e He. by apply nosec_reraise.
Qed.

(** *** The CSV filter *)

Lemma select_map {A} (f : A -> bool) (l : list A) :
  select l (List.map f l) = List.filter f l.
Proof.
  induction l as [|x l IH]; simpl; [done|]. rewrite IH. by destruct (f x).
Qed.

Lemma B10_refused csv_path column value w :
  accepts csv_path = false -> security_fault_before_io w (B10 csv_path column value w).
Proof. intros H. unfold B10. refused. Qed.

Lemma B10_accepted csv_path column value w data df i :
  accepts csv_path = true ->
  Fs.read_text (fs w) csv_path = inr data ->
  csv_parse data = inr df ->
  index_of column (columns df) = Some i ->
  B10 csv_path column value w =
  (inr (to_dict_records
          (DataFrame (columns df)
             (List.filter (fun row => py_eq (nth i row CMissing) value) (rows df)))),
   World (fs w) (open_conns w) (trace w ++ [FsOpenRead csv_path]) (log w)).
Proof.
  intros Ha Hread Hparse Hidx. unfold B10, try_except.
  rewrite bind_run, (B12_accepted _ _ Ha). cbv beta iota.
  rewrite bind_run. cbn [unless mret M_ret]. cbv beta iota.
  rewrite bind_run. unfold read_csv. rewrite bind_run.
  unfold open_read. cbn [emit snd fs]. rewrite Hread. cbv beta iota.
  rewrite Hparse. cbn [mret M_ret]. cbv beta iota.
  rewrite bind_run. unfold df_getitem. rewrite Hidx. cbn [mret M_ret]. cbv beta iota.
  unfold df_select. cbn [columns rows]. rewrite List.map_map, select_map.
  reflexivity.
Qed.

(** C9. [B10] checks its one path, the source, with the guard, and on an
    accepted path returns exactly the rows whose cell in the named column
    equals the given value, each as a mapping from field name to value.
    The equality is sensitive to the type: a string and a number are never
    equal.  On the table [{id:1,name:a}, {id:2,name:b}] the filter on
    [name] with the value [b] returns the one record [{id:2,name:b}]. *)
Theorem B10_filters (csv_path filter_column : string) (filter_value : cell) (w : world) :
  (exists b, fst (B12 csv_path w) = inr b /\
     if b then
       forall data df i,
         Fs.read_text (fs w) csv_path = inr data ->
         csv_parse data = inr df ->
         index_of filter_column (columns df) = Some i ->
         fst (B10 csv_path filter_column filter_value w) =
         inr (to_dict_records
                (DataFrame (columns df)
                   (List.filter (fun row => py_eq (nth i row CMissing) filter_value)
                      (rows df))))
     else security_fault_before_io w (B10 csv_path filter_column filter_value w)) /\
  (forall s z, py_eq (CStr s) (CInt z) = false /\ py_eq (CInt z) (CStr s) = false) /\
  fst (B10 (env := demo_env) "/data/t.csv" "name" (CStr "b") demo_world) =
  inr [ <["id" := CInt 2]> (<["name" := CStr "b"]> ∅) ].
Proof.
  split; [|split; [done|]].
  - exists (accepts csv_path). rewrite B12_run. split; [done|].
    destruct (accepts csv_path) eqn:Ha.
    + intros data df i Hread Hparse Hidx.
      by rewrite (B10_accepted _ _ _ _ _ _ _ Ha Hread Hparse Hidx).
    + by apply B10_refused.
  - by vm_compute.
Qed.

(** *** The guard tests a prefix of the text *)

Lemma accepted_escapes filepath :
  accepts filepath = true -> inside_sandbox (normpath filepath) = false ->
  escapes filepath.
Proof.
  intros Ha Hout. split; [|split; [done|]].
  - intros w. by rewrite (B12_accepted _ _ Ha).
  - repeat split; intros.
    + by apply nosec_B3.
    + by apply nosec_B5.
    + by apply nosec_B6.
    + by apply nosec_B7.
    + by apply nosec_B9.
    + by apply nosec_B10.
Qed.

(** C3. There are paths, [/database/x.txt] and [/data-evil/f] among them,
    that the guard accepts although their normal form is not inside
    [/data]: the guard compares the text with the prefix [/data] and asks
    for no separator after it.  No operation refuses such a path with a
    Security Fault, so it is read or written outside the sandbox: [B3]
    given [/data-evil/f] creates the directory [/data-evil] and the file in
    it. *)
Theorem prefix_guard_escapes :
  escapes "/database/x.txt" /\
  escapes "/data-evil/f" /\
  fst (B3 (env := demo_env) "http://ok" "/data-evil/f" empty_world) = inr tt /\
  fs (snd (B3 (env := demo_env) "http://ok" "/data-evil/f" empty_world))
    = <[ ["data-evil"; "f"] := NFile "X" ]> (<[ ["data-evil"] := NDir ]> ∅) /\
  Fs.read_text (fs (snd (B3 (env := demo_env) "http://ok" "/data-evil/f" empty_world)))
    "/data-evil/f" = inr "X".
Proof.
  split; [by apply accepted_escapes|].
  split; [by apply accepted_escapes|].
  by vm_compute.
Qed.

(** ** Further properties of the module *)

(** *** The guard *)

Lemma double_slash_rejected filepath :
  initial_slashes filepath = 2%nat -> accepts filepath = false.
Proof.
  intros Hi. unfold accepts, normpath.
  destruct (String.eqb filepath ""); [done|].
  cbv zeta. rewrite Hi. cbn [Nat.eqb repeat_sep].
  set (joined := join _).
  rewrite !append_cons.
  change ("" +:+ joined) with joined.
  cbn [String.eqb].
  unfold startswith. rewrite prefix_cons.
  destruct (Ascii.ascii_dec "/" sep); [|done].
  by rewrite prefix_cons.
Qed.

Lemma accepts_single_slash filepath :
  accepts filepath = true -> initial_slashes filepath = 1%nat.
Proof.
  intros Ha. pose proof (accepts_absolute _ Ha) as Habs.
  destruct (initial_slashes filepath) as [|[|[|n]]] eqn:Hi; [| done | |].
  - unfold initial_slashes in Hi. rewrite Habs in Hi. by destruct (_ && _).
  - rewrite (double_slash_rejected _ Hi) in Ha. done.
  - unfold initial_slashes in Hi.
    destruct (startswith filepath "/"); [|done]. by destruct (_ && _).
Qed.

(** X1. A path the guard accepts starts with a slash, and not with exactly
    two: relative paths such as [data/x] and the POSIX double-slash paths
    such as [//data/x] are rejected. *)
Theorem accepted_path_is_absolute (filepath : string) (w : world) :
  fst (B12 filepath w) = inr true -> initial_slashes filepath = 1%nat.
Proof. intros Ha. by apply accepts_single_slash, (B12_accepts _ w). Qed.


Lemma lex_step_name cur c :
  Fs.is_skip c = false -> String.eqb c ".." = false ->
  lex_step cur c = (cur ++ [c])%list.
Proof. intros Hs Hd. unfold lex_step. by rewrite Hs, Hd. Qed.



Lemma no_dotdot_last l : no_dotdot l -> last_is_dotdot l = false.
Proof.
  intros Hl. unfold last_is_dotdot.
  destruct (last l) as [c|] eqn:Hlast; [|done].
  apply last_Some in Hlast as [l' ->].
  apply Forall_app in Hl as [_ Hc]. by inversion Hc.
Qed.

Lemma lex_step_no_dotdot cur c : no_dotdot cur -> no_dotdot (lex_step cur c).
Proof.
  intros Hc. unfold lex_step.
  destruct (Fs.is_skip c); [done|].
  destruct (String.eqb c "..") eqn:Hd; [by apply Forall_removelast|].
  apply Forall_app. split; [done | by constructor].
Qed.

Lemma normpath_step_lex init cur c :
  init <> 0%nat -> no_dotdot cur -> normpath_step init cur c = lex_step cur c.
Proof.
  intros Hi Hc. unfold normpath_step, lex_step, Fs.is_skip.
  destruct (String.eqb c "" || String.eqb c "."); [done|].
  rewrite (no_dotdot_last _ Hc), andb_false_r, orb_false_r.
  destruct init; [done|]. cbn [Nat.eqb andb]. rewrite orb_false_r.
  destruct (String.eqb c ".."); cbn [negb]; [|done].
  by destruct cur.
Qed.

Lemma normpath_fold_lex init comps : forall cur,
  init <> 0%nat -> no_dotdot cur ->
  fold_left (normpath_step init) comps cur = fold_left lex_step comps cur.
Proof.
  induction comps as [|c rest IH]; intros cur Hi Hc; simpl; [done|].
  rewrite (normpath_step_lex _ _ _ Hi Hc).
  apply IH; [done | by apply lex_step_no_dotdot].
Qed.




(** X3. When the source path fails the guard, [B5], [B7] and [B9] raise a
    Security Fault before any network, database or file system call; the
    source is checked first, so the fault names the source path whatever
    the destination is. *)
Theorem source_outside_sandbox_refused (src : string) (w : world) :
  fst (B12 src w) = inr false ->
  (forall query out,
     security_fault_before_io w (B5 src query out w) /\
     fst (B5 src query out w) = inl (SecurityError ("Invalid database path: " +:+ src))) /\
  (forall out resize,
     security_fault_before_io w (B7 src out resize w) /\
     fst (B7 src out resize w) = inl (SecurityError ("Invalid image path: " +:+ src))) /\
  (forall out,
     security_fault_before_io w (B9 src out w) /\
     fst (B9 src out w) = inl (SecurityError ("Invalid markdown path: " +:+ src))).
Proof.
  intros Hrej. apply B12_rejected in Hrej.
  split; [|split]; intros; (split; [|unfold try_except]).
  - unfold B5. refused.
  - unfold B5, try_except. guard_step. reflexivity.
  - unfold B7. refused.
  - unfold B7, try_except. guard_step. reflexivity.
  - unfold B9. refused.
  - unfold B9, try_except. guard_step. reflexivity.
Qed.

(** *** The directory ensurer, continued *)

(** X4. When the directory ensurer returns, the directory of the path is
    there, as a directory, unless the path writes it with a final dot (for
    such a path the ensurer may return although a file is in the way). *)
Theorem directory_exists_after_ensure (filepath : string) (w : world) :
  fst (create_directory_if_not_exists filepath w) = inr tt ->
  snd (Fs.makedirs_parts (dirname filepath)) <> "." ->
  Fs.isdir (fs (snd (create_directory_if_not_exists filepath w)))
           (dirname filepath) = true.
Proof.
  destruct (accepts filepath) eqn:Ha.
  2:{ by rewrite (create_directory_rejected _ _ Ha). }
  rewrite (create_directory_accepted _ _ Ha), (accepts_dirname _ Ha).
  cbn [negb]. rewrite os_makedirs_run. cbn [fst snd fs].
  destruct (Fs.makedirs (fs w) (dirname filepath)) as [[[err filename]|] t'] eqn:Hm.
  { by destruct err. }
  intros _ Hdot. cbn [snd]. by eapply FsFacts.makedirs_fuel_isdir.
Qed.

(** X5. The directory ensurer only adds directories: every file and
    directory of the tree is still there, unchanged, after the call,
    whether it returns or raises, and whatever is new is a directory. *)
Theorem ensure_only_adds_directories (filepath : string) (w : world) :
  (forall k v, fs w !! k = Some v ->
               fs (snd (create_directory_if_not_exists filepath w)) !! k = Some v) /\
  (forall k v, fs (snd (create_directory_if_not_exists filepath w)) !! k = Some v ->
               fs w !! k = Some v \/ v = NDir).
Proof.
  destruct (accepts filepath) eqn:Ha.
  2:{ rewrite (create_directory_rejected _ _ Ha). cbn. split; [done | by left]. }
  rewrite (create_directory_accepted _ _ Ha), (accepts_dirname _ Ha).
  cbn [negb]. rewrite os_makedirs_run. cbn [fst snd fs].
  destruct (Fs.makedirs (fs w) (dirname filepath)) as [r t'] eqn:Hm.
  cbn [snd]. exact (FsFacts.makedirs_grows _ _ _ _ Hm).
Qed.

(** *** Failures of the fetching operations *)

(** X6. When the request itself fails (no connection, timeout), [B3] and
    [B6] raise that very exception; the GET is the only call made, the file
    system is untouched, and one ERROR line is logged, each operation with
    its own text. *)
Theorem fetch_network_failure (url path : string) (w : world)
  (kind : request_error) (msg : string) :
  fst (B12 path w) = inr true ->
  net_get url 30 = inl (kind, msg) ->
  B3 url path w =
    (inl (RequestException kind msg),
     World (fs w) (open_conns w) (trace w ++ [NetGet url 30])
           (log w ++ [(ERROR, "Failed to fetch data from " +:+ url +:+ ": " +:+ msg)])) /\
  B6 url path w =
    (inl (RequestException kind msg),
     World (fs w) (open_conns w) (trace w ++ [NetGet url 30])
           (log w ++ [(ERROR, "Failed to scrape " +:+ url +:+ ": " +:+ msg)])).
Proof.
  intros Ha Hget. apply B12_accepts in Ha.
  rewrite B3_fetch_and_save, B6_fetch_and_save.
  by rewrite !(fetch_and_save_accepted _ _ _ _ Ha), Hget.
Qed.

(** X8. [B3] is not all or nothing: when the directories were created and
    the destination then cannot be opened, the error of the open is raised
    and the new directories stay. *)
Theorem B3_failed_write_keeps_directories (url save_path : string) (w : world)
  (r : response) (t1 : gmap (list string) node) (err : os_error) :
  fst (B12 save_path w) = inr true ->
  net_get url 30 = inr r ->
  ~ (400 <= status_code r < 600) ->
  Fs.makedirs (fs w) (dirname save_path) = (None, t1) ->
  Fs.write_text t1 save_path (text r) = inl err ->
  fst (B3 url save_path w) = inl (OSError err save_path) /\
  fs (snd (B3 url save_path w)) = t1.
Proof.
  intros Ha Hget Hs Hmk Hwr. apply B12_accepts in Ha.
  rewrite B3_fetch_and_save, (fetch_and_save_accepted _ _ _ _ Ha), Hget.
  rewrite raise_for_status_pass by done.
  rewrite (create_directory_accepted _ _ Ha), (accepts_dirname _ Ha).
  cbn [negb]. rewrite os_makedirs_run. cbn [sent fs]. rewrite Hmk. cbn [fst snd].
  unfold open_write. cbn [emit snd fs]. by rewrite Hwr.
Qed.

(** *** Every error is logged *)


Lemma try_except_logged {A} (m : M A) (h : exn -> M A) (w : world) :
  (forall e w1, exists pre, h e w1 = (inl e, add_log [(ERROR, pre +:+ py_str e)] w1)) ->
  error_logged (try_except m h w).
Proof.
  intros Hh. unfold error_logged, try_except.
  destruct (m w) as [[e|a] w1]; [|done].
  destruct (Hh e w1) as [pre ->]. cbn. exists pre. by rewrite last_snoc.
Qed.

(** X7. No operation fails silently: whenever one of the six operations
    raises, the last line it logged is an ERROR line ending in the text of
    the exception it raises. *)
Theorem every_error_is_logged (w : world) :
  (forall url p, error_logged (B3 url p w)) /\
  (forall db query out, error_logged (B5 db query out w)) /\
  (forall url p, error_logged (B6 url p w)) /\
  (forall src out resize, error_logged (B7 src out resize w)) /\
  (forall src out, error_logged (B9 src out w)) /\
  (forall p column value, error_logged (B10 p column value w)).
Proof.
  repeat split; intros; apply try_except_logged; intros e w1.
  - destruct (is_request_exception e).
    + exists ("Failed to fetch data from " +:+ url +:+ ": ").
      by rewrite !append_assoc.
    + by exists "Error in B3: ".
  - by exists "Error in B5: ".
  - destruct (is_request_exception e).
    + exists ("Failed to scrape " +:+ url +:+ ": ").
      by rewrite !append_assoc.
    + by exists "Error in B6: ".
  - by exists "Error in B7: ".
  - by exists "Error in B9: ".
  - by exists "Error in B10: ".
Qed.

(** *** Failures of query-and-save *)

(** X9. When the query fails, [B5] raises the error of the engine after
    closing the connection: connect, execute and close are the only calls,
    no directory is created and no file is written. *)
Theorem B5_query_failure (db_path query out : string) (w : world)
  (tc tq : gmap (list string) node) (msg : string) :
  fst (B12 db_path w) = inr true ->
  fst (B12 out w) = inr true ->
  db_connect (engine_of db_path) db_path (fs w) = (inr tt, tc) ->
  db_query (engine_of db_path) db_path query tc = (inl msg, tq) ->
  B5 db_path query out w =
    (inl (LibraryError msg),
     World (db_close (engine_of db_path) db_path tq) (open_conns w)
           (trace w ++ [DbConnect (engine_of db_path) db_path;
                        DbExecute (engine_of db_path) db_path query;
                        DbClose (engine_of db_path) db_path])
           (log w ++ [(ERROR, "Error in B5: " +:+ msg)])).
Proof.
  intros Hdb Hout Hconn Hq. apply B12_accepts in Hdb, Hout.
  rewrite (B5_accepted _ _ _ _ Hdb Hout), connect_run, Hconn.
  cbv zeta. rewrite B5_body_run. unfold execute_fetchall.
  cbn [emit snd fs fst]. rewrite Hq. cbn [fst snd]. rewrite close_run.
  unfold B5_failed, add_log, set_fs.
  cbn [fst snd fs open_conns trace log remove_conn py_str].
  rewrite conn_eqb_refl. by rewrite <- !app_assoc.
Qed.

(** X10. When the connection cannot be opened, [B5] raises the error of
    the engine; there is nothing to close, and the attempt to connect is the
    only call. *)
Theorem B5_connect_failure (db_path query out : string) (w : world)
  (tc : gmap (list string) node) (msg : string) :
  fst (B12 db_path w) = inr true ->
  fst (B12 out w) = inr true ->
  db_connect (engine_of db_path) db_path (fs w) = (inl msg, tc) ->
  B5 db_path query out w =
    (inl (LibraryError msg),
     World tc (open_conns w) (trace w ++ [DbConnect (engine_of db_path) db_path])
           (log w ++ [(ERROR, "Error in B5: " +:+ msg)])).
Proof.
  intros Hdb Hout Hconn. apply B12_accepts in Hdb, Hout.
  by rewrite (B5_accepted _ _ _ _ Hdb Hout), connect_run, Hconn.
Qed.

(** *** Markdown and images *)

Lemma open_read_run path w :
  open_read path w =
  (match Fs.read_text (fs w) path with
   | inr data => inr data
   | inl err => inl (fs_exn err path)
   end,
   World (fs w) (open_conns w) (trace w ++ [FsOpenRead path]) (log w)).
Proof.
  unfold open_read. cbn [emit snd fs]. by destruct (Fs.read_text (fs w) path).
Qed.

Lemma open_write_run path data w :
  open_write path data w =
  match Fs.write_text (fs w) path data with
  | inr t => (inr tt, World t (open_conns w) (trace w ++ [FsOpenWrite path]) (log w))
  | inl err =>
      (inl (fs_exn err path),
       World (fs w) (open_conns w) (trace w ++ [FsOpenWrite path]) (log w))
  end.
Proof.
  unfold open_write. cbn [emit snd fs]. by destruct (Fs.write_text (fs w) path data).
Qed.

Lemma ensure_run filepath w :
  accepts filepath = true ->
  create_directory_if_not_exists filepath w = os_makedirs (dirname filepath) w.
Proof.
  intros Ha. by rewrite (create_directory_accepted _ _ Ha), (accepts_dirname _ Ha).
Qed.

(** X11. When [B9] runs through, the destination holds the rendering of
    what the source held: the source is read, rendered, and the result
    written over whatever was at the destination. *)
Theorem B9_writes_rendering (md_path output_path : string) (w : world)
  (md_content : string) (t1 t2 : gmap (list string) node) :
  fst (B12 md_path w) = inr true ->
  fst (B12 output_path w) = inr true ->
  Fs.read_text (fs w) md_path = inr md_content ->
  Fs.makedirs (fs w) (dirname output_path) = (None, t1) ->
  Fs.write_text t1 output_path (markdown_render md_content) = inr t2 ->
  fst (B9 md_path output_path w) = inr tt /\
  fs (snd (B9 md_path output_path w)) = t2 /\
  Fs.read_text t2 output_path = inr (markdown_render md_content).
Proof.
  intros Hsrc Hout Hread Hmk Hwr. apply B12_accepts in Hsrc, Hout.
  unfold B9, try_except.
  rewrite bind_run, (B12_accepted _ _ Hsrc). cbv beta iota.
  rewrite bind_run. cbn [unless mret M_ret]. cbv beta iota.
  rewrite bind_run, (B12_accepted _ _ Hout). cbv beta iota.
  rewrite bind_run. cbn [unless mret M_ret]. cbv beta iota.
  rewrite bind_run, open_read_run, Hread. cbv beta iota zeta.
  rewrite bind_run, (ensure_run _ _ Hout), os_makedirs_run. cbn [fs]. rewrite Hmk.
  cbn [fst snd]. rewrite bind_run, open_write_run. cbn [fs]. rewrite Hwr.
  cbn. split; [done|]. split; [done|]. by eapply FsFacts.read_after_write.
Qed.

(** X13. When [B7] runs through, the destination holds the encoding of the
    decoded source, resized when dimensions were given and as decoded when
    none were. *)
Theorem B7_writes_encoding (image_path output_path : string) (resize : option (Z * Z))
  (w : world) (data encoded : string) (img img' : image)
  (t1 t2 : gmap (list string) node) :
  fst (B12 image_path w) = inr true ->
  fst (B12 output_path w) = inr true ->
  Fs.read_text (fs w) image_path = inr data ->
  image_decode data = inr img ->
  resized img resize = inr img' ->
  Fs.makedirs (fs w) (dirname output_path) = (None, t1) ->
  image_encode img' output_path = inr encoded ->
  Fs.write_text t1 output_path encoded = inr t2 ->
  fst (B7 image_path output_path resize w) = inr tt /\
  fs (snd (B7 image_path output_path resize w)) = t2 /\
  Fs.read_text t2 output_path = inr encoded.
Proof.
  intros Hsrc Hout Hread Hdec Hres Hmk Henc Hwr. apply B12_accepts in Hsrc, Hout.
  unfold B7, try_except.
  rewrite bind_run, (B12_accepted _ _ Hsrc). cbv beta iota.
  rewrite bind_run. cbn [unless mret M_ret]. cbv beta iota.
  rewrite bind_run, (B12_accepted _ _ Hout). cbv beta iota.
  rewrite bind_run. cbn [unless mret M_ret]. cbv beta iota.
  rewrite bind_run. unfold image_open.
  rewrite bind_run, open_read_run, Hread. cbv beta iota. rewrite Hdec.
  cbn [mret M_ret]. cbv beta iota. rewrite bind_run.
  assert (forall w1 : world,
            match resize with
            | Some dims =>
                match image_resize img dims with
                | inr resized => mret resized
                | inl msg => raise (LibraryError msg)
                end
            | None => mret img
            end w1 = (inr img', w1)) as ->.
  { intros w1. unfold resized in Hres. destruct resize as [dims|].
    - by rewrite Hres.
    - by injection Hres as ->. }
  rewrite bind_run, (ensure_run _ _ Hout), os_makedirs_run. cbn [fs]. rewrite Hmk.
  cbn [fst snd]. rewrite bind_run. unfold image_save. rewrite Henc.
  rewrite open_write_run. cbn [fs]. rewrite Hwr.
  cbn. split; [done|]. split; [done|]. by eapply FsFacts.read_after_write.
Qed.

(** X12. When the source cannot be read, [B7] and [B9] raise the error of
    the open; the attempt to read is the only call: no directory is created
    for the destination and the file system is as it was. *)
Theorem unreadable_source_aborts (src out : string) (w : world) (err : os_error) :
  fst (B12 src w) = inr true ->
  fst (B12 out w) = inr true ->
  Fs.read_text (fs w) src = inl err ->
  (forall resize,
     fst (B7 src out resize w) = inl (OSError err src) /\
     fs (snd (B7 src out resize w)) = fs w /\
     trace (snd (B7 src out resize w)) = (trace w ++ [FsOpenRead src])%list) /\
  fst (B9 src out w) = inl (OSError err src) /\
  fs (snd (B9 src out w)) = fs w /\
  trace (snd (B9 src out w)) = (trace w ++ [FsOpenRead src])%list.
Proof.
  intros Hsrc Hout Hread. apply B12_accepts in Hsrc, Hout.
  split; [intros resize|].
  - unfold B7, try_except.
    rewrite bind_run, (B12_accepted _ _ Hsrc). cbv beta iota.
    rewrite bind_run. cbn [unless mret M_ret]. cbv beta iota.
    rewrite bind_run, (B12_accepted _ _ Hout). cbv beta iota.
    rewrite bind_run. cbn [unless mret M_ret]. cbv beta iota.
    rewrite bind_run. unfold image_open.
    rewrite bind_run, open_read_run, Hread. by cbn.
  - unfold B9, try_except.
    rewrite bind_run, (B12_accepted _ _ Hsrc). cbv beta iota.
    rewrite bind_run. cbn [unless mret M_ret]. cbv beta iota.
    rewrite bind_run, (B12_accepted _ _ Hout). cbv beta iota.
    rewrite bind_run. cbn [unless mret M_ret]. cbv beta iota.
    rewrite bind_run, open_read_run, Hread. by cbn.
Qed.

(** *** The CSV filter, continued *)

(** The run of [B10] on an accepted path, step by step. *)
Lemma B10_run csv_path column value w :
  accepts csv_path = true ->
  B10 csv_path column value w =
  match Fs.read_text (fs w) csv_path with
  | inl err => B10_failed (fs_exn err csv_path) (opened csv_path w)
  | inr data =>
      match csv_parse data with
      | inl msg => B10_failed (LibraryError msg) (opened csv_path w)
      | inr df =>
          match index_of column (columns df) with
          | None => B10_failed (LibraryError (py_repr column)) (opened csv_path w)
          | Some i =>
              (inr (to_dict_records
                      (DataFrame (columns df)
                         (List.filter (fun row => py_eq (nth i row CMissing) value)
                            (rows df)))),
               opened csv_path w)
          end
      end
  end.
Proof.
  intros Ha. unfold B10, try_except.
  rewrite bind_run, (B12_accepted _ _ Ha). cbv beta iota.
  rewrite bind_run. cbn [unless mret M_ret]. cbv beta iota.
  rewrite bind_run. unfold read_csv. rewrite bind_run, open_read_run.
  fold (opened csv_path w).
  destruct (Fs.read_text (fs w) csv_path) as [err|data]; [reflexivity|].
  cbv beta iota.
  destruct (csv_parse data) as [msg|df]; [reflexivity|].
  cbn [mret M_ret]. cbv beta iota. rewrite bind_run. unfold df_getitem.
  destruct (index_of column (columns df)) as [i|]; [|reflexivity].
  cbn [mret M_ret]. cbv beta iota.
  unfold df_select. cbn [columns rows]. by rewrite List.map_map, select_map.
Qed.

(** X14. When the table has no column of the given name, [B10] raises the
    lookup error of the table, whose text is the [repr] of the name, and
    logs it; nothing is returned. *)
Theorem B10_missing_column (csv_path column : string) (value : cell) (w : world)
  (data : string) (df : dataframe) :
  fst (B12 csv_path w) = inr true ->
  Fs.read_text (fs w) csv_path = inr data ->
  csv_parse data = inr df ->
  index_of column (columns df) = None ->
  B10 csv_path column value w =
    (inl (LibraryError (py_repr column)),
     World (fs w) (open_conns w) (trace w ++ [FsOpenRead csv_path])
           (log w ++ [(ERROR, "Error in B10: " +:+ py_repr column)])).
Proof.
  intros Ha Hread Hparse Hidx. apply B12_accepts in Ha.
  by rewrite (B10_run _ _ _ _ Ha), Hread, Hparse, Hidx.
Qed.

(** X15. [B10] only reads: whatever the path, the table and the outcome,
    the file system and the open connections are as they were, and the
    opening of the source is the only call it can make. *)
Theorem B10_only_reads (csv_path column : string) (value : cell) (w : world) :
  fs (snd (B10 csv_path column value w)) = fs w /\
  open_conns (snd (B10 csv_path column value w)) = open_conns w /\
  (trace (snd (B10 csv_path column value w)) = trace w \/
   trace (snd (B10 csv_path column value w)) = (trace w ++ [FsOpenRead csv_path])%list).
Proof.
  destruct (accepts csv_path) eqn:Ha.
  - rewrite (B10_run _ _ _ _ Ha).
    destruct (Fs.read_text (fs w) csv_path) as [err|data]; [by repeat split; right|].
    destruct (csv_parse data) as [msg|df]; [by repeat split; right|].
    destruct (index_of column (columns df)); by repeat split; right.
  - destruct (B10_refused _ column value w Ha) as (_ & Hfs & Htr & Hco).
    repeat split; [done | done | by left].
Qed.

Lemma py_eq_missing value : py_eq CMissing value = false.
Proof. by destruct value. Qed.

Lemma record_lookup columns : forall i (row : list cell) column,
  index_of column columns = Some i ->
  (i < length row)%nat ->
  (list_to_map (zip columns row) : gmap string cell) !! column
  = Some (nth i row CMissing).
Proof.
  induction columns as [|x columns IH]; intros i row column Hidx Hlen; [done|].
  destruct row as [|v row]; [simpl in Hlen; lia|].
  simpl in Hidx. cbn [zip zip_with]. rewrite list_to_map_cons. cbn [fst snd].
  destruct (String.eqb x column) eqn:Hx.
  - apply String.eqb_eq in Hx. subst x. injection Hidx as <-.
    by rewrite lookup_insert_eq.
  - apply String.eqb_neq in Hx.
    destruct (index_of column columns) as [j|] eqn:Hj; [|done].
    injection Hidx as <-. rewrite lookup_insert_ne by done.
    simpl in Hlen. cbn [nth]. apply IH; [done | lia].
Qed.

(** X16. Every record [B10] returns has the given column, and the value
    under it equals the given value. *)
Theorem B10_records_match (csv_path column : string) (value : cell) (w : world)
  (records : list (gmap string cell)) (record : gmap string cell) :
  fst (B10 csv_path column value w) = inr records ->
  In record records ->
  exists c, record !! column = Some c /\ py_eq c value = true.
Proof.
  intros Hres Hin.
  destruct (accepts csv_path) eqn:Ha.
  2:{ destruct (B10_refused _ column value w Ha) as ([msg Hmsg] & _). congruence. }
  rewrite (B10_run _ _ _ _ Ha) in Hres.
  destruct (Fs.read_text (fs w) csv_path) as [err|data]; [done|].
  destruct (csv_parse data) as [msg|df]; [done|].
  destruct (index_of column (columns df)) as [i|] eqn:Hidx; [|done].
  cbn in Hres. injection Hres as <-.
  unfold to_dict_records in Hin. cbn [columns rows] in Hin.
  apply in_map_iff in Hin as (row & <- & Hrow).
  apply filter_In in Hrow as [_ Heq].
  exists (nth i row CMissing). split; [|done].
  apply record_lookup; [done|].
  destruct (Nat.lt_ge_cases i (length row)) as [|Hge]; [done|].
  rewrite (nth_overflow _ _ Hge), py_eq_missing in Heq. done.
Qed.

(** *** Directories created on the way *)

Lemma split_name n rest : plain n -> split (n +:+ String sep rest) = n :: split rest.
Proof.
  induction n as [|a n IH]; intros Hn.
  - reflexivity.
  - destruct Hn as (Hs & _ & Hn). rewrite append_cons. cbn [split].
    rewrite Hs, (IH Hn). reflexivity.
Qed.

Lemma plain_name_eqb n :
  plain n -> n <> "" -> Fs.is_skip n = false /\ String.eqb n ".." = false.
Proof.
  intros Hn Hne. destruct n as [|a n]; [done|].
  destruct Hn as (_ & Hd & _). unfold is_dot in Hd.
  unfold Fs.is_skip. cbn [String.eqb]. by rewrite Hd.
Qed.

Lemma plain_not_sep n :
  plain n -> Forall (fun c => is_sep c = false) (list_ascii_of_string n).
Proof.
  induction n as [|a n IH]; [by constructor|]. intros (Hs & _ & Hn).
  cbn [list_ascii_of_string]. constructor; [done | by apply IH].
Qed.

Lemma plain_no_sep n : plain n -> no_sep n = true.
Proof.
  intros Hn. unfold no_sep. apply forallb_forall. intros c Hc.
  pose proof (plain_not_sep n Hn) as Hall.
  rewrite List.Forall_forall in Hall. by rewrite (Hall c Hc).
Qed.

Lemma drop_to_sep_after l R :
  Forall (fun c => is_sep c = false) l ->
  drop_to_sep (l ++ sep :: R) = sep :: R.
Proof.
  induction 1 as [|c l Hc _ IH]; [done|]. cbn. by rewrite Hc.
Qed.

Lemma take_to_sep_before l R :
  Forall (fun c => is_sep c = false) l ->
  take_to_sep (l ++ sep :: R) = l.
Proof.
  induction 1 as [|c l Hc _ IH]; [done|]. cbn [app take_to_sep]. by rewrite Hc, IH.
Qed.

(** [dirname] of a directory and a name put together is the directory. *)
Lemma dirname_child (d f : string) (l : list ascii) (c : ascii) :
  list_ascii_of_string d = (l ++ [c])%list -> is_sep c = false ->
  Forall (fun c => is_sep c = false) (list_ascii_of_string f) ->
  dirname (d +:+ String sep f) = d.
Proof.
  intros Hd Hc Hf.
  assert (upto_last_sep (d +:+ String sep f)
          = string_of_list_ascii (list_ascii_of_string d ++ [sep])) as Hhead.
  { unfold upto_last_sep. rewrite list_of_string_app. cbn [list_ascii_of_string].
    rewrite rev_app_distr. cbn [List.rev]. rewrite <- app_assoc. cbn [app].
    rewrite drop_to_sep_after by (by apply Forall_rev).
    cbn [List.rev]. by rewrite rev_involutive. }
  unfold dirname. rewrite Hhead. unfold all_seps, rstrip_sep.
  rewrite list_ascii_of_string_of_list_ascii.
  assert (String.eqb (string_of_list_ascii (list_ascii_of_string d ++ [sep])) "" = false)
    as ->.
  { rewrite Hd. by destruct l. }
  rewrite Hd, !forallb_app. cbn [forallb]. rewrite Hc, andb_false_r. cbn [negb andb].
  rewrite !rev_app_distr. cbn [List.rev app drop_seps].
  replace (is_sep sep) with true by reflexivity. rewrite Hc.
  cbn [List.rev]. rewrite rev_involutive, <- Hd.
  apply string_of_list_ascii_of_string.
Qed.

Lemma after_last_sep_child (d f : string) :
  Forall (fun c => is_sep c = false) (list_ascii_of_string f) ->
  after_last_sep (d +:+ String sep f) = f.
Proof.
  intros Hf. unfold after_last_sep. rewrite list_of_string_app.
  cbn [list_ascii_of_string]. rewrite rev_app_distr. cbn [List.rev].
  rewrite <- app_assoc. cbn [app].
  rewrite take_to_sep_before by (by apply Forall_rev).
  rewrite rev_involutive. apply string_of_list_ascii_of_string.
Qed.

Lemma path_split_dirname p : path_split p = (dirname p, after_last_sep p).
Proof. reflexivity. Qed.

(** [os.path.split] of a directory and a name put together gives the two
    back. *)
Lemma path_split_child (d f : string) (l : list ascii) (c : ascii) :
  list_ascii_of_string d = (l ++ [c])%list -> is_sep c = false ->
  Forall (fun c => is_sep c = false) (list_ascii_of_string f) ->
  path_split (d +:+ String sep f) = (d, f).
Proof.
  intros Hd Hc Hf. rewrite path_split_dirname.
  by rewrite (dirname_child _ _ _ _ Hd Hc Hf), (after_last_sep_child _ _ Hf).
Qed.

Lemma path_split_root (f : string) :
  Forall (fun c => is_sep c = false) (list_ascii_of_string f) ->
  path_split (String sep f) = ("/", f).
Proof.
  intros Hf. rewrite path_split_dirname. f_equal.
  - unfold dirname, upto_last_sep. cbn [list_ascii_of_string List.rev].
    rewrite drop_to_sep_after by (by apply Forall_rev). reflexivity.
  - by apply (after_last_sep_child "").
Qed.

Lemma last_char_not_sep n :
  plain n -> n <> "" ->
  exists l c, list_ascii_of_string n = (l ++ [c])%list /\ is_sep c = false.
Proof.
  intros Hn Hne. pose proof (plain_not_sep n Hn) as Hall.
  destruct (list_ascii_of_string n) as [|c l _] eqn:Hl using rev_ind.
  - destruct n; [done | discriminate].
  - exists l, c. split; [done|]. apply Forall_app in Hall as [_ Hc].
    by inversion Hc.
Qed.

Lemma check_path_ok p :
  Fs.has_nul p = false -> p <> "" -> (String.length p < 4096)%nat ->
  Fs.check_path p = None.
Proof.
  intros Hn Hp Hl. unfold Fs.check_path. rewrite Hn.
  destruct (String.eqb_spec p ""); [done|]. unfold Fs.PATH_MAX.
  destruct (4096 <=? Z.of_nat (String.length p)) eqn:H; [|done].
  apply Z.leb_le in H. lia.
Qed.

(** The call of [makedirs] on a path that enters a missing directory [n] of
    the root and leaves it again makes that directory. *)
Lemma makedirs_there_and_back (t : gmap (list string) node) (n : string) :
  plain n -> n <> "" -> Fs.has_nul n = false -> Fs.too_long n = false ->
  t !! [n] = None ->
  snd (Fs.makedirs t ("/" +:+ n +:+ "/../data")) !! [n] = Some NDir.
Proof.
  intros Hn Hne Hnul Hlong Hfree.
  destruct (plain_name_eqb n Hn Hne) as [Hskip Hdd].
  assert (String.eqb n "." = false) as Hdot.
  { unfold Fs.is_skip in Hskip. by apply orb_false_iff in Hskip as [_ ?]. }
  assert (String.eqb n "" = false) as Hnil by by apply String.eqb_neq.
  assert ((String.length n <= 255)%nat) as Hlen.
  { unfold Fs.too_long, Fs.NAME_MAX in Hlong. apply Z.ltb_ge in Hlong. lia. }
  pose proof (plain_not_sep n Hn) as Hns.
  set (t1 := <[ [n] := NDir ]> t).
  set (p1 := String sep n).
  set (p2 := p1 +:+ String sep "..").
  set (p3 := p2 +:+ String sep "data").
  assert ("/" +:+ n +:+ "/../data" = p3) as ->.
  { unfold p3, p2, p1. rewrite !append_cons, append_assoc. reflexivity. }
  (* the names of the three paths *)
  assert (Fs.names p1 = [n]) as N1.
  { change p1 with ("" +:+ String sep n).
    by rewrite names_app_sep, (names_no_sep _ (plain_no_sep _ Hn)), Hnil. }
  assert (Fs.names p2 = [n; ".."]) as N2.
  { unfold p2. by rewrite names_app_sep, N1. }
  assert (Fs.names p3 = [n; ".."; "data"]) as N3.
  { unfold p3. by rewrite names_app_sep, N2. }
  (* the three paths are well formed *)
  assert (Fs.check_path p1 = None) as C1.
  { apply check_path_ok; [| done |].
    - change p1 with ("/" +:+ n). by rewrite has_nul_app, Hnul.
    - unfold p1. cbn [String.length]. lia. }
  assert (Fs.check_path p2 = None) as C2.
  { apply check_path_ok.
    - unfold p2. change p1 with ("/" +:+ n). by rewrite !has_nul_app, Hnul.
    - done.
    - unfold p2, p1. rewrite append_cons. cbn [String.length].
      rewrite append_length. cbn [String.length]. lia. }
  (* the parts of the three paths *)
  destruct (last_char_not_sep n Hn Hne) as (l & c & Hl & Hc).
  assert (Fs.makedirs_parts p1 = ("/", n)) as P1.
  { unfold Fs.makedirs_parts, p1. by rewrite (path_split_root _ Hns), Hnil. }
  assert (Fs.makedirs_parts p2 = (p1, "..")) as P2.
  { unfold Fs.makedirs_parts, p2.
    rewrite (path_split_child p1 ".." (sep :: l) c); [done| |done|by repeat constructor].
    unfold p1. cbn [list_ascii_of_string]. by rewrite Hl. }
  assert (Fs.makedirs_parts p3 = (p2, "data")) as P3.
  { unfold Fs.makedirs_parts, p3.
    rewrite (path_split_child p2 "data"
               (list_ascii_of_string p1 ++ [sep; "."%char]) "."%char);
      [done| |done|by repeat constructor].
    unfold p2. rewrite list_of_string_app. cbn [list_ascii_of_string].
    by rewrite <- app_assoc. }
  (* nothing of the first two is there *)
  assert (Fs.exists_ t p1 = false) as E1.
  { unfold Fs.exists_, Fs.stat, Fs.resolve. rewrite C1, N1.
    cbn [removelast last Fs.walk]. rewrite Hdot, Hdd, Hlong.
    cbn [app]. by rewrite Hfree. }
  assert (Fs.exists_ t p2 = false) as E2.
  { unfold Fs.exists_, Fs.stat, Fs.resolve. rewrite C2, N2.
    cbn [removelast last Fs.walk]. rewrite Hskip, Hdd, Hlong.
    cbn [app]. by rewrite Hfree. }
  (* the directory is made *)
  assert (forall fuel, Fs.makedirs_fuel (S fuel) t p1 = (None, t1)) as M1.
  { intros fuel. rewrite FsFacts.makedirs_fuel_S, P1.
    replace (Fs.exists_ t "/") with true by reflexivity.
    rewrite andb_false_r.
    unfold Fs.mkdir_exist_ok, Fs.mkdir, Fs.resolve. rewrite C1, N1.
    cbn [removelast last Fs.walk]. rewrite Hdot, Hdd, Hlong.
    cbn [app]. by rewrite Hfree. }
  assert (Fs.isdir t1 p2 = true) as D2.
  { rewrite FsFacts.isdir_walk, C2, N2. cbn [Fs.walk].
    rewrite Hskip, Hdd, Hlong. cbn [app]. unfold t1. rewrite lookup_insert_eq.
    reflexivity. }
  assert (forall fuel, Fs.makedirs_fuel (S (S fuel)) t p2 = (None, t1)) as M2.
  { intros fuel. rewrite FsFacts.makedirs_fuel_S, P2, E1, M1.
    replace (String.eqb p1 "") with false by reflexivity.
    cbn [negb andb String.eqb]. cbv iota.
    by apply FsFacts.mkdir_exist_ok_isdir. }
  unfold Fs.makedirs.
  assert (exists fuel, String.length p3 = S (S fuel)) as [fuel ->].
  { exists (String.length n + 7)%nat.
    unfold p3, p2, p1. rewrite !append_length. cbn [String.length]. lia. }
  rewrite FsFacts.makedirs_fuel_S, P3, E2, M2.
  replace (String.eqb p2 "") with false by reflexivity.
  cbn [negb andb String.eqb]. cbv iota.
  destruct (Fs.mkdir_exist_ok t1 p3) as [r t'] eqn:Hm. cbn [snd].
  apply FsFacts.mkdir_exist_ok_grows in Hm as [Hkeep _].
  apply Hkeep. unfold t1. by rewrite lookup_insert_eq.
Qed.

(** X17. The guard looks at the normal form, the directory ensurer works on
    the path as given: for an accepted path that passes through a missing
    directory [n] of the root and back ([/n/../data/f], with a name [n]
    other than [data] that the system takes), the ensurer creates [/n], a
    directory outside [/data]. *)
Theorem ensure_creates_directory_outside (n : string) (w : world) :
  plain n -> n <> "" -> n <> "data" ->
  Fs.has_nul n = false -> Fs.too_long n = false ->
  fs w !! [n] = None ->
  fst (B12 ("/" +:+ n +:+ "/../data/f") w) = inr true /\
  fs (snd (create_directory_if_not_exists ("/" +:+ n +:+ "/../data/f") w)) !! [n]
  = Some NDir.
Proof.
  intros Hn Hne _ Hnul Hlong Hfree.
  destruct (plain_name_eqb n Hn Hne) as [Hskip Hdd].
  set (p := "/" +:+ n +:+ "/../data/f").
  assert (split p = [""; n; ".."; "data"; "f"]) as Hsplit.
  { unfold p. change ("/" +:+ n +:+ "/../data/f")
      with ("" +:+ String sep (n +:+ String sep "../data/f")).
    by rewrite (split_name "") , (split_name n). }
  assert (initial_slashes p = 1%nat) as Hinit.
  { unfold p. destruct n as [|a n']; [done|]. destruct Hn as (Hs & _).
    change ("/" +:+ String a n' +:+ "/../data/f")
      with (String sep (String a (n' +:+ "/../data/f"))).
    unfold initial_slashes, startswith. rewrite !prefix_cons.
    destruct (Ascii.ascii_dec "/" sep); [|done].
    destruct (Ascii.ascii_dec "/" a) as [<-|]; [by vm_compute in Hs | done]. }
  assert (accepts p = true) as Ha.
  { unfold accepts, normpath.
    assert (String.eqb p "" = false) as -> by (by unfold p; destruct n).
    cbv zeta. rewrite Hinit, Hsplit. cbn [Nat.eqb repeat_sep].
    rewrite (normpath_fold_lex 1) by (done || constructor).
    cbn [fold_left]. change (lex_step [] "") with (@nil string).
    rewrite (lex_step_name [] n Hskip Hdd). reflexivity. }
  split; [by rewrite (B12_accepted _ _ Ha)|].
  assert (dirname p = "/" +:+ n +:+ "/../data") as Hdir.
  { assert (p = ("/" +:+ n +:+ "/../data") +:+ String sep "f") as ->.
    { unfold p. by rewrite !append_assoc. }
    apply (dirname_child _ _
             ("/"%char :: list_ascii_of_string n ++ list_ascii_of_string "/../dat") "a"%char).
    - rewrite !list_of_string_app. cbn [list_ascii_of_string app].
      by rewrite <- app_assoc.
    - reflexivity.
    - by repeat constructor. }
  rewrite (ensure_run _ _ Ha), os_makedirs_run, Hdir. cbn [snd fs].
  by apply makedirs_there_and_back.
Qed.

(** *** What a normal return means *)

Lemma fetch_and_save_returns wd url p w :
  fst (fetch_and_save wd url p w) = inr tt ->
  exists r,
    net_get url 30 = inr r /\
    Fs.read_text (fs (snd (fetch_and_save wd url p w))) p = inr (text r) /\
    trace (snd (fetch_and_save wd url p w))
    = (trace w ++ [NetGet url 30; FsMakedirs (dirname p); FsOpenWrite p])%list /\
    last (log (snd (fetch_and_save wd url p w))) = Some (INFO, succeeded wd url p).
Proof.
  destruct (accepts p) eqn:Ha.
  2:{ by rewrite (fetch_and_save_rejected _ _ _ _ Ha). }
  rewrite (fetch_and_save_accepted _ _ _ _ Ha).
  destruct (net_get url 30) as [[kind msg]|r]; [done|].
  pose proof (raise_for_status_world r (sent url w)) as Hw1.
  destruct (raise_for_status r (sent url w)) as [[e|[]] w1]; [done|].
  cbn [snd] in Hw1. subst w1.
  rewrite (ensure_run _ _ Ha), os_makedirs_run.
  destruct (Fs.makedirs (fs (sent url w)) (dirname p)) as [[[err filename]|] t1];
    [done|].
  cbn [fst snd]. rewrite open_write_run. cbn [fs].
  destruct (Fs.write_text t1 p (text r)) as [err|t2] eqn:Hwr; [done|].
  intros _. exists r. split; [done|]. cbn [snd add_log fs trace log sent].
  split; [by eapply FsFacts.read_after_write|].
  split; [by rewrite <- !app_assoc | by rewrite last_snoc].
Qed.

(** X18. Whenever [B3] or [B6] returns normally, the GET was answered, the
    destination holds the body of the answer, exactly three calls were made,
    in this order: the GET, the creation of the directory, the opening of
    the destination; and the last line of the log reports the success. *)
Theorem fetch_return_means_written (url path : string) (w : world) :
  (fst (B3 url path w) = inr tt ->
   exists r,
     net_get url 30 = inr r /\
     Fs.read_text (fs (snd (B3 url path w))) path = inr (text r) /\
     trace (snd (B3 url path w))
     = (trace w ++ [NetGet url 30; FsMakedirs (dirname path); FsOpenWrite path])%list /\
     last (log (snd (B3 url path w)))
     = Some (INFO, "Successfully fetched and saved data from " +:+ url +:+ " to " +:+ path)) /\
  (fst (B6 url path w) = inr tt ->
   exists r,
     net_get url 30 = inr r /\
     Fs.read_text (fs (snd (B6 url path w))) path = inr (text r) /\
     trace (snd (B6 url path w))
     = (trace w ++ [NetGet url 30; FsMakedirs (dirname path); FsOpenWrite path])%list /\
     last (log (snd (B6 url path w)))
     = Some (INFO, "Successfully scraped data from " +:+ url +:+ " to " +:+ path)).
Proof.
  rewrite B3_fetch_and_save, B6_fetch_and_save.
  split; apply fetch_and_save_returns.
Qed.

End Properties.

(** ** The theorems at work

    Each statement below runs an operation in the concrete environment. *)

Lemma write_outside_sandbox_refused_witness :
  security_fault_before_io empty_world
    (B3 (env := demo_env) "http://ok" "/etc/passwd" empty_world) /\
  security_fault_before_io empty_world
    (B7 (env := demo_env) "/data/in.png" "/data/../etc/passwd" None empty_world).
Proof.
  pose proof (write_outside_sandbox_refused (env := demo_env) "/etc/passwd"
                empty_world eq_refl) as (H3 & _).
  pose proof (write_outside_sandbox_refused (env := demo_env) "/data/../etc/passwd"
                empty_world eq_refl) as (_ & _ & _ & H7 & _).
  split; [apply H3 | apply H7].
Defined.

(** A status outside the success class that the status check lets through:
    the answer 304 is written to the destination. *)
Lemma B3_writes_on_304 :
  net_get (Env := demo_env) "http://cached" 30
    = inr (Response 304 "Not Modified" "http://cached" "") /\
  http_success 304 = false /\
  fst (B12 (env := demo_env) "/data/out.txt" empty_world) = inr true /\
  fst (B3 (env := demo_env) "http://cached" "/data/out.txt" empty_world) = inr tt /\
  fs (snd (B3 (env := demo_env) "http://cached" "/data/out.txt" empty_world))
    !! ["data"; "out.txt"] = Some (NFile "").
Proof. by vm_compute. Qed.

Lemma B3_error_status_aborts_witness :
  (exists msg, fst (B3 (env := demo_env) "http://missing" "/data/out.txt" demo_world)
               = inl (RequestException HTTPError msg)) /\
  fs (snd (B3 (env := demo_env) "http://missing" "/data/out.txt" demo_world))
    = fs demo_world /\
  trace (snd (B3 (env := demo_env) "http://missing" "/data/out.txt" demo_world))
    = [NetGet "http://missing" 30].
Proof.
  apply (B3_error_status_aborts (env := demo_env) "http://missing" "/data/out.txt"
           demo_world (Response 404 "Not Found" "http://missing" "gone"));
    [reflexivity | reflexivity | cbn; lia].
Defined.

(** A destination the guard accepts that cannot be opened for writing: the
    GET answers 200, and [B3] raises. *)
Lemma B3_ok_but_directory :
  net_get (Env := demo_env) "http://ok" 30 = inr (Response 200 "OK" "http://ok" "X") /\
  fst (B12 (env := demo_env) "/data/" empty_world) = inr true /\
  fst (B3 (env := demo_env) "http://ok" "/data/" empty_world)
    = inl (OSError EISDIR "/data/") /\
  Fs.read_text (fs (snd (B3 (env := demo_env) "http://ok" "/data/" empty_world))) "/data/"
    = inl EISDIR.
Proof. by vm_compute. Qed.

Lemma B3_ok_body_written_witness :
  fst (B3 (env := demo_env) "http://ok" "/data/old.txt" demo_world) = inr tt /\
  fs (snd (B3 (env := demo_env) "http://ok" "/data/old.txt" demo_world))
    = <[ ["data"; "old.txt"] := NFile "X" ]> (fs demo_world) /\
  Fs.read_text (fs (snd (B3 (env := demo_env) "http://ok" "/data/old.txt" demo_world)))
    "/data/old.txt" = inr "X".
Proof.
  apply (B3_ok_body_written (env := demo_env) "http://ok" "/data/old.txt" demo_world
           (Response 200 "OK" "http://ok" "X") (fs demo_world));
    reflexivity.
Defined.

(** On a rejected path the two operations raise Security Faults with
    different messages, and log different lines. *)
Lemma B6_message_differs :
  fst (B3 (env := demo_env) "http://ok" "/etc/passwd" empty_world)
    = inl (SecurityError "Invalid save path: /etc/passwd") /\
  fst (B6 (env := demo_env) "http://ok" "/etc/passwd" empty_world)
    = inl (SecurityError "Invalid output path: /etc/passwd") /\
  fst (B6 (env := demo_env) "http://ok" "/etc/passwd" empty_world)
    <> fst (B3 (env := demo_env) "http://ok" "/etc/passwd" empty_world) /\
  log (snd (B6 (env := demo_env) "http://ok" "/data/f" empty_world))
    <> log (snd (B3 (env := demo_env) "http://ok" "/data/f" empty_world)).
Proof. by vm_compute. Qed.

Lemma B5_closes_connection_witness :
  open_conns (snd (B5 (env := demo_env) "/data/test.db" "SELECT * FROM test"
                     "/data/out/query_result.txt" demo_world)) = [] /\
  (exists mid,
     trace (snd (B5 (env := demo_env) "/data/test.db" "SELECT * FROM test"
                   "/data/out/query_result.txt" demo_world))
     = DbConnect SQLite "/data/test.db" :: (mid ++ [DbClose SQLite "/data/test.db"])%list) /\
  (exists tw,
     Fs.read_text tw "/data/out/query_result.txt" = inr "[(1, 'test')]" /\
     fs (snd (B5 (env := demo_env) "/data/test.db" "SELECT * FROM test"
                "/data/out/query_result.txt" demo_world)) = tw).
Proof.
  pose proof (B5_closes_connection (env := demo_env) "/data/test.db" "SELECT * FROM test"
                "/data/out/query_result.txt" demo_world) as (Hconns & Htrace & Hrows).
  split; [exact Hconns|]. split.
  - exact (Htrace (fs demo_world) eq_refl eq_refl eq_refl).
  - destruct (Hrows [[SqlInt 1; SqlText "test"]] eq_refl)
      as (tc & tq & td & tw & _ & _ & _ & _ & Hread & Hfs).
    exists tw. split; [exact Hread | exact Hfs].
Defined.

Lemma B10_filters_witness :
  fst (B10 (env := demo_env) "/data/t.csv" "id" (CStr "2") demo_world) = inr [] /\
  fst (B10 (env := demo_env) "/data/t.csv" "id" (CInt 2) demo_world)
    = inr [ <["id" := CInt 2]> (<["name" := CStr "b"]> ∅) ].
Proof.
  split.
  - destruct (B10_filters (env := demo_env) "/data/t.csv" "id" (CStr "2") demo_world)
      as ((b & Hb & Hrows) & _).
    injection Hb as <-.
    exact (Hrows "id,name" demo_table 0%nat eq_refl eq_refl eq_refl).
  - destruct (B10_filters (env := demo_env) "/data/t.csv" "id" (CInt 2) demo_world)
      as ((b & Hb & Hrows) & _).
    injection Hb as <-.
    exact (Hrows "id,name" demo_table 0%nat eq_refl eq_refl eq_refl).
Defined.

Lemma create_directory_idempotent_witness :
  fs (snd (create_directory_if_not_exists (env := demo_env) "/data/a/b/c.txt"
             (snd (create_directory_if_not_exists (env := demo_env) "/data/a/b/c.txt"
                     demo_world))))
    = fs (snd (create_directory_if_not_exists (env := demo_env) "/data/a/b/c.txt"
                 demo_world)) /\
  fst (create_directory_if_not_exists (env := demo_env) "/data/old.txt" demo_world)
    = inr tt /\
  fs (snd (create_directory_if_not_exists (env := demo_env) "/data/old.txt" demo_world))
    = fs demo_world.
Proof.
  split.
  - destruct (create_directory_idempotent (env := demo_env) "/data/a/b/c.txt" demo_world)
      as (b & Hb & Hidem).
    injection Hb as <-. exact (proj1 Hidem).
  - destruct (create_directory_idempotent (env := demo_env) "/data/old.txt" demo_world)
      as (b & Hb & Hidem).
    injection Hb as <-. exact (proj1 (proj2 Hidem) eq_refl).
Defined.

(** With a file in the way and a final dot in the directory of the path,
    the first call of the ensurer returns although that directory is not
    there, and the second call raises: the two calls leave the same tree,
    not the same outcome. *)
Example ensure_outcomes_differ :
  fst (create_directory_if_not_exists (env := demo_env) "/data/m/../old.txt/./f"
         demo_world) = inr tt /\
  Fs.isdir
    (fs (snd (create_directory_if_not_exists (env := demo_env) "/data/m/../old.txt/./f"
                demo_world)))
    "/data/m/../old.txt/." = false /\
  fst (create_directory_if_not_exists (env := demo_env) "/data/m/../old.txt/./f"
         (snd (create_directory_if_not_exists (env := demo_env)
                 "/data/m/../old.txt/./f" demo_world)))
  = inl (OSError ENOTDIR "/data/m/../old.txt/.").
Proof. by vm_compute. Qed.

(** *** The further properties at work *)

Lemma accepted_path_is_absolute_witness :
  Posixpath.initial_slashes "/data/x" = 1%nat.
Proof. exact (accepted_path_is_absolute (env := demo_env) "/data/x" empty_world eq_refl). Defined.


Lemma source_outside_sandbox_refused_witness :
  fst (B9 (env := demo_env) "/etc/passwd" "/etc/shadow" empty_world)
  = inl (SecurityError "Invalid markdown path: /etc/passwd").
Proof.
  pose proof (source_outside_sandbox_refused (env := demo_env) "/etc/passwd"
                empty_world eq_refl) as (_ & _ & H9).
  exact (proj2 (H9 "/etc/shadow")).
Defined.

Lemma directory_exists_after_ensure_witness :
  Fs.isdir
    (fs (snd (create_directory_if_not_exists (env := demo_env) "/data/a/b/c.txt"
                demo_world)))
    "/data/a/b" = true.
Proof.
  apply (directory_exists_after_ensure (env := demo_env) "/data/a/b/c.txt" demo_world);
    [reflexivity | by vm_compute].
Defined.

Lemma ensure_only_adds_directories_witness :
  fs (snd (create_directory_if_not_exists (env := demo_env) "/data/a/b/c.txt" demo_world))
    !! ["data"; "old.txt"] = Some (NFile "old").
Proof.
  exact (proj1 (ensure_only_adds_directories (env := demo_env) "/data/a/b/c.txt" demo_world)
           ["data"; "old.txt"] (NFile "old") eq_refl).
Defined.

Lemma fetch_network_failure_witness :
  fst (B3 (env := demo_env) "http://down" "/data/out.txt" demo_world)
  = inl (RequestException ConnectionError "unreachable").
Proof.
  pose proof (fetch_network_failure (env := demo_env) "http://down" "/data/out.txt"
                demo_world ConnectionError "unreachable" eq_refl eq_refl) as [H3 _].
  by rewrite H3.
Defined.

Lemma B3_failed_write_keeps_directories_witness :
  fst (B3 (env := demo_env) "http://ok" "/data/new/dir/" empty_world)
  = inl (OSError EISDIR "/data/new/dir/") /\
  fs (snd (B3 (env := demo_env) "http://ok" "/data/new/dir/" empty_world))
  = <[ ["data"; "new"; "dir"] := NDir ]>
      (<[ ["data"; "new"] := NDir ]> (<[ ["data"] := NDir ]> ∅)).
Proof.
  apply (B3_failed_write_keeps_directories (env := demo_env) "http://ok" "/data/new/dir/"
           empty_world (Response 200 "OK" "http://ok" "X"));
    [reflexivity | reflexivity | cbn; lia | reflexivity | reflexivity].
Defined.

Lemma B5_query_failure_witness :
  fst (B5 (env := demo_env) "/data/test.db" "DROP" "/data/out.txt" demo_world)
  = inl (LibraryError "syntax error") /\
  fs (snd (B5 (env := demo_env) "/data/test.db" "DROP" "/data/out.txt" demo_world))
  = fs demo_world.
Proof.
  pose proof (B5_query_failure (env := demo_env) "/data/test.db" "DROP" "/data/out.txt"
                demo_world (fs demo_world) (fs demo_world) "syntax error"
                eq_refl eq_refl eq_refl eq_refl) as H.
  by rewrite H.
Defined.

Lemma B5_connect_failure_witness :
  trace (snd (B5 (env := offline_env) "/data/test.db" "SELECT * FROM test"
                "/data/out.txt" demo_world))
  = [DbConnect SQLite "/data/test.db"].
Proof.
  pose proof (B5_connect_failure (env := offline_env) "/data/test.db"
                "SELECT * FROM test" "/data/out.txt" demo_world (fs demo_world)
                "unable to open database file" eq_refl eq_refl eq_refl) as H.
  by rewrite H.
Defined.

Lemma B9_writes_rendering_witness :
  fst (B9 (env := demo_env) "/data/old.txt" "/data/out/old.html" demo_world) = inr tt /\
  Fs.read_text
    (fs (snd (B9 (env := demo_env) "/data/old.txt" "/data/out/old.html" demo_world)))
    "/data/out/old.html" = inr "<p>old</p>".
Proof.
  destruct (B9_writes_rendering (env := demo_env) "/data/old.txt" "/data/out/old.html"
              demo_world "old" (<[ ["data"; "out"] := NDir ]> (fs demo_world))
              (<[ ["data"; "out"; "old.html"] := NFile "<p>old</p>" ]>
                 (<[ ["data"; "out"] := NDir ]> (fs demo_world)))
              eq_refl eq_refl eq_refl eq_refl eq_refl) as (Hret & Hfs & Hread).
  split; [exact Hret | by rewrite Hfs].
Defined.

Lemma unreadable_source_aborts_witness :
  fst (B9 (env := demo_env) "/data/missing.md" "/data/out/x.html" demo_world)
  = inl (OSError ENOENT "/data/missing.md") /\
  fs (snd (B9 (env := demo_env) "/data/missing.md" "/data/out/x.html" demo_world))
  = fs demo_world.
Proof.
  destruct (unreadable_source_aborts (env := demo_env) "/data/missing.md"
              "/data/out/x.html" demo_world ENOENT eq_refl eq_refl eq_refl)
    as (_ & Hret & Hfs & _).
  split; [exact Hret | exact Hfs].
Defined.

Lemma B7_writes_encoding_witness :
  fst (B7 (env := demo_env) "/data/old.txt" "/data/out/small.png" (Some (50, 50))
         demo_world) = inr tt /\
  Fs.read_text
    (fs (snd (B7 (env := demo_env) "/data/old.txt" "/data/out/small.png" (Some (50, 50))
                demo_world)))
    "/data/out/small.png" = inr "old".
Proof.
  destruct (B7_writes_encoding (env := demo_env) "/data/old.txt" "/data/out/small.png"
              (Some (50, 50)) demo_world "old" "old"
              (Image (100, 100) "old") (Image (50, 50) "old")
              (<[ ["data"; "out"] := NDir ]> (fs demo_world))
              (<[ ["data"; "out"; "small.png"] := NFile "old" ]>
                 (<[ ["data"; "out"] := NDir ]> (fs demo_world)))
              eq_refl eq_refl eq_refl eq_refl eq_refl eq_refl eq_refl eq_refl)
    as (Hret & Hfs & Hread).
  split; [exact Hret | by rewrite Hfs].
Defined.

Lemma B10_missing_column_witness :
  fst (B10 (env := demo_env) "/data/t.csv" "age" (CInt 3) demo_world)
  = inl (LibraryError "'age'").
Proof.
  pose proof (B10_missing_column (env := demo_env) "/data/t.csv" "age" (CInt 3)
                demo_world "id,name" demo_table eq_refl eq_refl eq_refl eq_refl) as H.
  by rewrite H.
Defined.

Lemma B10_records_match_witness :
  exists c,
    (<["id" := CInt 2]> (<["name" := CStr "b"]> ∅) : gmap string cell) !! "name" = Some c /\
    py_eq c (CStr "b") = true.
Proof.
  apply (B10_records_match (env := demo_env) "/data/t.csv" "name" (CStr "b") demo_world
           [ <["id" := CInt 2]> (<["name" := CStr "b"]> ∅) ]).
  - by vm_compute.
  - by left.
Defined.

Lemma ensure_creates_directory_outside_witness :
  fst (B12 (env := demo_env) "/x/../data/f" empty_world) = inr true /\
  fs (snd (create_directory_if_not_exists (env := demo_env) "/x/../data/f" empty_world)) !! ["x"]
  = Some NDir.
Proof.
  apply (ensure_creates_directory_outside (env := demo_env) "x" empty_world);
    [by repeat split | done | done | reflexivity | reflexivity | done].
Defined.

Lemma fetch_return_means_written_witness :
  exists r,
    net_get (Env := demo_env) "http://ok" 30 = inr r /\
    Fs.read_text (fs (snd (B3 (env := demo_env) "http://ok" "/data/out.txt" demo_world)))
      "/data/out.txt" = inr (text r).
Proof.
  destruct (proj1 (fetch_return_means_written (env := demo_env) "http://ok"
                     "/data/out.txt" demo_world) eq_refl) as (r & Hget & Hread & _).
  exists r. split; [exact Hget | exact Hread].
Defined.
